(** * meilisearch-go, fasthttp client: request dispatch and update polling

    A shallow embedding of [fast_client.go] (executeRequest, sendRequest,
    handleStatusCode, handleResponse, WaitForPendingUpdate) and of
    [fast_client_updates.go] (Get), with the properties stated for them.

    Go values are modelled as follows.
    - [[]byte] is [list Byte.byte]; [string(b)] is [string_of_bytes].
    - A slice or map field that the code compares with [nil] is an [option]:
      [None] is the nil slice/map, [Some []] / [Some ∅] the empty non-nil one.
    - An interface field that the code compares with [nil] is an [option] of
      a record holding its methods.
    - A Go [error] result is [option error]; [None] is [nil].
    - Everything behind the HTTP transport and the clock is one state [W],
      threaded through every call that performs I/O; each call also reports
      the collaborator calls it made as a list of [Event]s. *)

From Stdlib Require Import ZArith Ascii String List Lia.
From stdpp Require Import base option strings list gmap pretty.

Local Open Scope Z_scope.
Local Open Scope string_scope.
Local Open Scope list_scope.

(** ** Plain data *)

Definition bytes := list Byte.byte.

Definition string_of_bytes (b : bytes) : string := string_of_list_byte b.

Definition bytes_of_string (s : string) : bytes := list_byte_of_string s.

(** An error value produced by a library outside the repository (net/url,
    encoding/json, fasthttp, context); only its message is kept. *)
Inductive cause := Cause (msg : string).

(** [client.go]: Config. *)
Record Config := { Host : string; APIKey : string }.

(** [net/url]: the part of [url.URL] that sendRequest touches is RawQuery;
    the other fields travel along unchanged. *)
Record URL := {
  Scheme : string;
  Authority : string;
  Path : string;
  RawQuery : string;
  Fragment : string }.

Definition URL_set_RawQuery (q : string) (u : URL) : URL :=
  {| Scheme := Scheme u; Authority := Authority u; Path := Path u;
     RawQuery := q; Fragment := Fragment u |}.

(** [net/url]: [type Values map[string][]string]. *)
Abbreviation Values := (gmap string (list string)).

(** [func (v Values) Set(key, value string) { v[key] = []string{value} }] *)
Definition Values_Set (key value : string) (v : Values) : Values :=
  <[key := [value]]> v.

(** [fasthttp.Request], as far as sendRequest fills it in. *)
Record Request := {
  RequestURI : string;
  ReqMethod : string;
  ReqHeader : gmap string string;
  ReqBody : bytes }.

(** [fasthttp.AcquireRequest()]: a blank request. *)
Definition AcquireRequest : Request :=
  {| RequestURI := ""; ReqMethod := ""; ReqHeader := ∅; ReqBody := [] |}.

Definition SetRequestURI (uri : string) (r : Request) : Request :=
  {| RequestURI := uri; ReqMethod := ReqMethod r;
     ReqHeader := ReqHeader r; ReqBody := ReqBody r |}.

Definition SetMethod (m : string) (r : Request) : Request :=
  {| RequestURI := RequestURI r; ReqMethod := m;
     ReqHeader := ReqHeader r; ReqBody := ReqBody r |}.

Definition SetBody (b : bytes) (r : Request) : Request :=
  {| RequestURI := RequestURI r; ReqMethod := ReqMethod r;
     ReqHeader := ReqHeader r; ReqBody := b |}.

Definition Header_Set (k v : string) (r : Request) : Request :=
  {| RequestURI := RequestURI r; ReqMethod := ReqMethod r;
     ReqHeader := <[k := v]> (ReqHeader r); ReqBody := ReqBody r |}.

(** [fasthttp.Response], as far as the client reads it. *)
Record Response := { StatusCode : Z; Body : bytes }.

(** ** The structured error ([error.go] is not among the sources) *)

(** Modelled from the spec: the error-kind tag of a Structured Error. The
    repository's error.go, which declares the ErrCode constants, is missing;
    the five kinds are those of the spec's error taxonomy, under the
    identifiers fast_client.go uses for four of them, and [ErrCodeUnknown] is
    the tag of an error whose kind was never set. *)
Inductive ErrCode :=
| ErrCodeUnknown
| ErrCodeUrlConstruction
| ErrCodeMarshalRequest
| ErrCodeRequestExecution
| ErrCodeResponseStatusCode
| ErrCodeResponseUnmarshalBody.

(** Modelled from the spec: the Structured Error. The field names are those
    of the struct literal in executeRequest; [Code] and [OriginError] are the
    spec's error-kind tag and optional wrapped lower-level cause. *)
Record Error := {
  Endpoint : string;
  Method : string;
  Function : string;
  APIName : string;
  RequestToString : string;
  ResponseToString : string;
  MeilisearchMessage : string;
  ErrStatusCode : Z;
  StatusCodeExpected : option (list Z);
  Code : ErrCode;
  OriginError : option cause }.

Definition Error_set_RequestToString (s : string) (e : Error) : Error :=
  {| Endpoint := Endpoint e; Method := Method e; Function := Function e;
     APIName := APIName e; RequestToString := s;
     ResponseToString := ResponseToString e;
     MeilisearchMessage := MeilisearchMessage e;
     ErrStatusCode := ErrStatusCode e;
     StatusCodeExpected := StatusCodeExpected e;
     Code := Code e; OriginError := OriginError e |}.

Definition Error_set_ResponseToString (s : string) (e : Error) : Error :=
  {| Endpoint := Endpoint e; Method := Method e; Function := Function e;
     APIName := APIName e; RequestToString := RequestToString e;
     ResponseToString := s;
     MeilisearchMessage := MeilisearchMessage e;
     ErrStatusCode := ErrStatusCode e;
     StatusCodeExpected := StatusCodeExpected e;
     Code := Code e; OriginError := OriginError e |}.

Definition Error_set_MeilisearchMessage (s : string) (e : Error) : Error :=
  {| Endpoint := Endpoint e; Method := Method e; Function := Function e;
     APIName := APIName e; RequestToString := RequestToString e;
     ResponseToString := ResponseToString e;
     MeilisearchMessage := s;
     ErrStatusCode := ErrStatusCode e;
     StatusCodeExpected := StatusCodeExpected e;
     Code := Code e; OriginError := OriginError e |}.

Definition Error_set_StatusCode (n : Z) (e : Error) : Error :=
  {| Endpoint := Endpoint e; Method := Method e; Function := Function e;
     APIName := APIName e; RequestToString := RequestToString e;
     ResponseToString := ResponseToString e;
     MeilisearchMessage := MeilisearchMessage e;
     ErrStatusCode := n;
     StatusCodeExpected := StatusCodeExpected e;
     Code := Code e; OriginError := OriginError e |}.

(** Modelled from the spec: [Error.WithErrCode(code, errs...)] of the
    missing error.go: tags the error with its kind and, when a lower-level
    cause is passed, wraps it. *)
Definition WithErrCode (code : ErrCode) (errs : option cause) (e : Error) : Error :=
  {| Endpoint := Endpoint e; Method := Method e; Function := Function e;
     APIName := APIName e; RequestToString := RequestToString e;
     ResponseToString := ResponseToString e;
     MeilisearchMessage := MeilisearchMessage e;
     ErrStatusCode := ErrStatusCode e;
     StatusCodeExpected := StatusCodeExpected e;
     Code := code;
     OriginError := match errs with Some c => Some c | None => OriginError e end |}.

(** Modelled from the spec: [Error.ErrorBody(body)] of the missing
    error.go: captures the raw response body as diagnostic text and, best
    effort, the server-provided message found in it; [message] is the
    tolerant parse, [None] when the body holds no parseable message. *)
Definition ErrorBody (message : bytes -> option string) (body : bytes) (e : Error) : Error :=
  let e := Error_set_ResponseToString (string_of_bytes body) e in
  match message body with
  | Some m => Error_set_MeilisearchMessage m e
  | None => e
  end.

(** A Go [error] value as the client returns it. *)
Inductive error :=
| Structured (e : Error)                (* a pointer to an Error *)
| Wrapped (c : cause) (msg : string)    (* errors.Wrap(c, msg) *)
| Foreign (c : cause).                  (* a library's error, passed on as is *)

(** ** The request descriptor *)

(** [json.Marshaler]: MarshalJSON() ([]byte, error). *)
Record Marshaler := { MarshalJSON : bytes * option cause }.

(** [json.Unmarshaler] on a pointer to a [T]: UnmarshalJSON(data) error,
    which may write the pointee. *)
Record Unmarshaler (T : Type) := { UnmarshalJSON : bytes -> T -> T * option cause }.
Arguments UnmarshalJSON {T} _ _ _.

(** [fast_client.go]: internalRawRequest. *)
Record internalRawRequest (T : Type) := {
  endpoint : string;
  method : string;
  withRequest : option Marshaler;
  withResponse : option (Unmarshaler T);
  withQueryParams : option (gmap string string);
  acceptedStatusCodes : option (list Z);
  functionName : string;
  apiName : string }.
Arguments endpoint {T} _.
Arguments method {T} _.
Arguments withRequest {T} _.
Arguments withResponse {T} _.
Arguments withQueryParams {T} _.
Arguments acceptedStatusCodes {T} _.
Arguments functionName {T} _.
Arguments apiName {T} _.

(** ** Types of [fast_client_updates.go] and of the type declarations *)

Definition UpdateStatus := string.
Definition UpdateStatusUnknown : UpdateStatus := "unknown".
Definition UpdateStatusEnqueued : UpdateStatus := "enqueued".
Definition UpdateStatusProcessed : UpdateStatus := "processed".
Definition UpdateStatusFailed : UpdateStatus := "failed".

Record Update := {
  Status : UpdateStatus;
  UpdateID : Z;
  UpdateType : gmap string string;
  UpdateError : string;
  EnqueuedAt : Z;
  ProcessedAt : Z }.

(** [&Update{}] *)
Definition Update_zero : Update :=
  {| Status := ""; UpdateID := 0; UpdateType := ∅; UpdateError := "";
     EnqueuedAt := 0; ProcessedAt := 0 |}.

Record AsyncUpdateID := { AsyncUpdateID_UpdateID : Z }.

(** ** Collaborators *)

(** What the client calls and the repository does not define. [W] is the state
    of the outside world (server, network, clock). *)
Record Runtime (W : Type) := {
  (* net/url *)
  url_Parse : string -> cause + URL;
  URL_Query : URL -> Values;
  Values_Encode : Values -> string;
  URL_String : URL -> string;
  (* fasthttp *)
  httpClient_Do : Request -> W -> W * (cause + Response);
  ReleaseResponse : Response -> Response;
  (* time *)
  time_Sleep : Z -> W -> W;
  (* code of the repository that is not among the sources *)
  Error_message : bytes -> option string;
  Update_UnmarshalJSON : bytes -> Update -> Update * option cause }.
Arguments url_Parse {W} _ _.
Arguments URL_Query {W} _ _.
Arguments Values_Encode {W} _ _.
Arguments URL_String {W} _ _.
Arguments httpClient_Do {W} _ _ _.
Arguments ReleaseResponse {W} _ _.
Arguments time_Sleep {W} _ _ _.
Arguments Error_message {W} _ _.
Arguments Update_UnmarshalJSON {W} _ _ _.

(** A call made to a collaborator. *)
Inductive Event :=
| EvDo (r : Request)          (* httpClient.Do was called with [r] *)
| EvUnmarshal (b : bytes)     (* the response target's UnmarshalJSON was called on [b] *)
| EvSleep (d : Z).            (* time.Sleep(d) *)

(** [fast_client.go]: FastHttpClient. Its [httpClient] is the [httpClient_Do]
    of the runtime; the facade fields play no part in dispatch. *)
Record FastHttpClient := { config : Config }.

(** [fast_client_updates.go]: fastClientUpdates. *)
Record fastClientUpdates := { client : FastHttpClient; indexUID : string }.

(** [context.Context]: the only method the client calls is Err(), whose
    answer depends on the clock and on whoever holds the cancel function. *)
Record Context_ (W : Type) := { ctx_Err : W -> option cause }.
Arguments ctx_Err {W} _ _.

(** How a call of WaitForPendingUpdate ends: it returns its two results, or
    the nil [updateID] is dereferenced. *)
Inductive WaitResult :=
| Returned (status : UpdateStatus) (err : option error)
| Panicked.

(** The loop of handleStatusCode: true as soon as one accepted code equals
    the response's. *)
Fixpoint codeAccepted (code : Z) (accepted : list Z) : bool :=
  match accepted with
  | [] => false
  | acceptedCode :: rest =>
      if Z.eqb code acceptedCode then true else codeAccepted code rest
  end.

(** [strconv.FormatInt(id, 10)] *)
Definition FormatInt10 (id : Z) : string := pretty id.

Section Dispatcher.
Context {W : Type} (rt : Runtime W).

(** [fast_client.go]: sendRequest. The deferred ReleaseResponse runs when
    the function returns, so the caller reads the response after it. *)
Definition sendRequest {T} (c : FastHttpClient) (req : internalRawRequest T)
    (internalError : Error) (w : W)
  : W * list Event * Error * (error + Response) :=
  (* Setup URL *)
  match url_Parse rt (Host (config c) +:+ endpoint req) with
  | inl err => (w, [], internalError, inl (Wrapped err "unable to parse url"))
  | inr requestURL =>
    (* Build query parameters *)
    let requestURL :=
      match withQueryParams req with
      | Some params =>
          let query := map_fold Values_Set (URL_Query rt requestURL) params in
          URL_set_RawQuery (Values_Encode rt query) requestURL
      | None => requestURL
      end in
    let request :=
      SetMethod (method req)
        (SetRequestURI (URL_String rt requestURL) AcquireRequest) in
    let body :=
      match withRequest req with
      | Some rawJSONRequest =>
          let '(data, err) := MarshalJSON rawJSONRequest in
          let internalError :=
            Error_set_RequestToString (string_of_bytes data) internalError in
          match err with
          | Some err =>
              inl (WithErrCode ErrCodeMarshalRequest (Some err) internalError)
          | None => inr (internalError, SetBody data request)
          end
      | None => inr (internalError, request)
      end in
    match body with
    | inl e => (w, [], e, inl (Structured e))
    | inr (internalError, request) =>
      (* adding request headers *)
      let request := Header_Set "Content-Type" "application/json" request in
      let request :=
        if decide (APIKey (config c) = "") then request
        else Header_Set "X-Meili-API-Key" (APIKey (config c)) request in
      (* request is sent *)
      match httpClient_Do rt request w with
      | (w', inl err) =>
          let e := WithErrCode ErrCodeRequestExecution (Some err) internalError in
          (w', [EvDo request], e, inl (Structured e))
      | (w', inr response) =>
          (w', [EvDo request], internalError, inr (ReleaseResponse rt response))
      end
    end
  end.

(** [fast_client.go]: handleStatusCode. *)
Definition handleStatusCode {T} (req : internalRawRequest T)
    (response : Response) (internalError : Error) : Error * option error :=
  match acceptedStatusCodes req with
  | Some accepted =>
      if codeAccepted (StatusCode response) accepted then (internalError, None)
      else
        (* At this point the response status code is a failure. *)
        let rawBody := Body response in
        let internalError := ErrorBody (Error_message rt) rawBody internalError in
        let e := WithErrCode ErrCodeResponseStatusCode None internalError in
        (e, Some (Structured e))
  | None => (internalError, None)
  end.

(** [fast_client.go]: handleResponse. [target] is the value the response
    target points to. *)
Definition handleResponse {T} (req : internalRawRequest T)
    (response : Response) (internalError : Error) (target : T)
  : T * list Event * Error * option error :=
  match withResponse req with
  | Some u =>
      let rawBody := Body response in
      let internalError :=
        Error_set_ResponseToString (string_of_bytes rawBody) internalError in
      match UnmarshalJSON u rawBody target with
      | (target', Some err) =>
          let e := WithErrCode ErrCodeResponseUnmarshalBody (Some err) internalError in
          (target', [EvUnmarshal rawBody], e, Some (Structured e))
      | (target', None) => (target', [EvUnmarshal rawBody], internalError, None)
      end
  | None => (target, [], internalError, None)
  end.

(** The [&Error{...}] literal that opens executeRequest; the fields it
    does not name have Go's zero value. *)
Definition newInternalError {T} (req : internalRawRequest T) : Error :=
  {| Endpoint := endpoint req;
     Method := method req;
     Function := functionName req;
     APIName := apiName req;
     RequestToString := "empty request";
     ResponseToString := "empty response";
     MeilisearchMessage := "empty meilisearch message";
     ErrStatusCode := 0;
     StatusCodeExpected := acceptedStatusCodes req;
     Code := ErrCodeUnknown;
     OriginError := None |}.

(** [fast_client.go]: executeRequest. Returns the world, the value of the
    response target, the collaborator calls made, and the error. *)
Definition executeRequest {T} (c : FastHttpClient) (req : internalRawRequest T)
    (target : T) (w : W) : W * T * list Event * option error :=
  let internalError := newInternalError req in
  match sendRequest c req internalError w with
  | (w, evs, _, inl err) => (w, target, evs, Some err)
  | (w, evs, internalError, inr response) =>
      let internalError :=
        Error_set_StatusCode (StatusCode response) internalError in
      match handleStatusCode req response internalError with
      | (_, Some err) => (w, target, evs, Some err)
      | (internalError, None) =>
          match handleResponse req response internalError target with
          | (target, evs', _, Some err) => (w, target, evs ++ evs', Some err)
          | (target, evs', _, None) => (w, target, evs ++ evs', None)
          end
      end
  end.

(** [fast_client_updates.go]: Get. *)
Definition Get (c : fastClientUpdates) (id : Z) (w : W)
  : W * list Event * (error + Update) :=
  let resp := Update_zero in
  let req :=
    {| endpoint := "/indexes/" +:+ indexUID c +:+ "/updates/" +:+ FormatInt10 id;
       method := "GET";
       withRequest := None;
       withResponse := Some {| UnmarshalJSON := Update_UnmarshalJSON rt |};
       withQueryParams := None;
       acceptedStatusCodes := Some [200];
       functionName := "Get";
       apiName := "Updates" |} in
  match executeRequest (client c) req resp w with
  | (w, _, evs, Some err) => (w, evs, inl err)
  | (w, resp, evs, None) => (w, evs, inr resp)
  end.

(** [fast_client.go]: Updates, through newFastClientUpdates. *)
Definition Updates (c : FastHttpClient) (indexID : string) : fastClientUpdates :=
  {| client := c; indexUID := indexID |}.

(** [fast_client.go]: WaitForPendingUpdate. The [for] loop has no bound of
    its own: [fuel] bounds the number of iterations and [None] means the
    loop was still running when the fuel ran out. *)
Fixpoint WaitForPendingUpdate (fuel : nat) (c : FastHttpClient)
    (ctx : Context_ W) (interval : Z) (indexID : string)
    (updateID : option AsyncUpdateID) (w : W)
  : option (W * list Event * WaitResult) :=
  match fuel with
  | O => None
  | S fuel =>
      let apiUpdates := Updates c indexID in
      match ctx_Err ctx w with
      | Some err => Some (w, [], Returned "" (Some (Foreign err)))
      | None =>
          match updateID with
          | None => Some (w, [], Panicked)
          | Some updateID =>
              match Get apiUpdates (AsyncUpdateID_UpdateID updateID) w with
              | (w, evs, inl _) =>
                  Some (w, evs, Returned UpdateStatusUnknown None)
              | (w, evs, inr update) =>
                  if decide (Status update = UpdateStatusEnqueued) then
                    match WaitForPendingUpdate fuel c ctx interval indexID
                            (Some updateID) (time_Sleep rt interval w) with
                    | Some (w', evs', r) =>
                        Some (w', evs ++ EvSleep interval :: evs', r)
                    | None => None
                    end
                  else Some (w, evs, Returned (Status update) None)
              end
          end
      end
  end.

End Dispatcher.

(** ** A sample runtime

    A small, executable instance of the collaborators, on which the
    definitions above can be run: the transport answers from a script, one
    entry per call, and every call takes [latency] ticks of the clock. *)
Module Demo.

Record World := { now : Z; script : list (cause + Response) }.

Definition latency : Z := 10.

Definition Do (r : Request) (w : World) : World * (cause + Response) :=
  match script w with
  | [] => ({| now := now w + latency; script := [] |},
           inl (Cause "connection refused"))
  | answer :: rest => ({| now := now w + latency; script := rest |}, answer)
  end.

Definition Sleep (d : Z) (w : World) : World :=
  {| now := now w + Z.max 0 d; script := script w |}.

Fixpoint has_control (s : string) : bool :=
  match s with
  | EmptyString => false
  | String ch rest =>
      let n := Ascii.nat_of_ascii ch in
      if (Nat.ltb n 32 || Nat.eqb n 127)%bool then true else has_control rest
  end.

Fixpoint fields (sep : Ascii.ascii) (s : string) : list string :=
  match s with
  | EmptyString => [""]
  | String ch rest =>
      if Ascii.eqb ch sep then "" :: fields sep rest
      else match fields sep rest with
           | [] => [String ch ""]
           | f :: fs => String ch f :: fs
           end
  end.

Fixpoint cut (sep : Ascii.ascii) (s : string) : string * string :=
  match s with
  | EmptyString => ("", "")
  | String ch rest =>
      if Ascii.eqb ch sep then ("", rest)
      else let '(a, b) := cut sep rest in (String ch a, b)
  end.

(** url.Parse refuses a control character; the sample parser knows no other
    reason to fail, and keeps everything before the '?' as the path. *)
Definition Parse (s : string) : cause + URL :=
  if has_control s then inl (Cause "net/url: invalid control character in URL")
  else let '(p, q) := cut "?"%char s in
       inr {| Scheme := ""; Authority := ""; Path := p; RawQuery := q;
              Fragment := "" |}.

Definition String_ (u : URL) : string :=
  if decide (RawQuery u = "") then Path u else Path u +:+ "?" +:+ RawQuery u.

(** key=value pairs separated by '&', values of one key collected in order;
    no unescaping. *)
Definition Query (u : URL) : Values :=
  foldl (fun (m : Values) (kv : string) =>
           if decide (kv = "") then m
           else let '(k, v) := cut "="%char kv in
                <[k := default [] (m !! k) ++ [v]]> m)
        ∅ (fields "&"%char (RawQuery u)).

Definition join (sep : string) (l : list string) : string :=
  match l with
  | [] => ""
  | x :: xs => foldl (fun acc y => acc +:+ sep +:+ y) x xs
  end.

Definition Encode (v : Values) : string :=
  join "&" (mjoin ((fun '(k, vs) => (fun x => k +:+ "=" +:+ x) <$> vs)
                     <$> map_to_list v)).

(** The sample decoder of an Update takes the whole body for the status and
    refuses an empty body. *)
Definition UnmarshalUpdate (data : bytes) (u : Update) : Update * option cause :=
  match data with
  | [] => (u, Some (Cause "unexpected end of JSON input"))
  | _ => ({| Status := string_of_bytes data; UpdateID := UpdateID u;
             UpdateType := UpdateType u; UpdateError := UpdateError u;
             EnqueuedAt := EnqueuedAt u; ProcessedAt := ProcessedAt u |}, None)
  end.

Definition message (body : bytes) : option string :=
  match body with
  | [] => None
  | _ => Some (string_of_bytes body)
  end.

Definition runtime : Runtime World :=
  {| url_Parse := Parse;
     URL_Query := Query;
     Values_Encode := Encode;
     URL_String := String_;
     httpClient_Do := Do;
     ReleaseResponse := fun r => r;
     time_Sleep := Sleep;
     Error_message := message;
     Update_UnmarshalJSON := UnmarshalUpdate |}.

Definition local : FastHttpClient :=
  {| config := {| Host := "http://localhost:7700"; APIKey := "" |} |}.

Definition keyed : FastHttpClient :=
  {| config := {| Host := "http://localhost:7700"; APIKey := "masterKey" |} |}.

(** A context whose deadline is the instant [d]. *)
Definition deadline (d : Z) : Context_ World :=
  {| ctx_Err := fun w =>
       if decide (d <= now w) then Some (Cause "context deadline exceeded")
       else None |}.

Definition answer (code : Z) (body : string) : cause + Response :=
  inr {| StatusCode := code; Body := bytes_of_string body |}.

(** A response target that keeps the raw body, as RawType does, and one
    whose decoder refuses every body. *)
Definition raw : Unmarshaler bytes :=
  {| UnmarshalJSON := fun data _ => (data, None) |}.

Definition picky : Unmarshaler bytes :=
  {| UnmarshalJSON := fun data old => (old, Some (Cause "invalid character")) |}.

(** DELETE /indexes/movies, accepted = [204], no payload, no target. *)
Definition deleteIndex : internalRawRequest bytes :=
  {| endpoint := "/indexes/movies"; method := "DELETE";
     withRequest := None; withResponse := None; withQueryParams := None;
     acceptedStatusCodes := Some [204];
     functionName := "Delete"; apiName := "Indexes" |}.

(** GET /indexes/movies/documents?limit=5&offset=2 with limit overridden. *)
Definition listDocuments : internalRawRequest bytes :=
  {| endpoint := "/indexes/movies/documents?limit=5&offset=2"; method := "GET";
     withRequest := None; withResponse := Some raw;
     withQueryParams := Some {[ "limit" := "20" ]};
     acceptedStatusCodes := Some [200];
     functionName := "List"; apiName := "Documents" |}.


(** A payload whose MarshalJSON fails after producing one byte. *)
Definition badPayload : Marshaler :=
  {| MarshalJSON := (bytes_of_string "{", Some (Cause "json: unsupported value")) |}.

Definition goodPayload : Marshaler :=
  {| MarshalJSON := (bytes_of_string "{}", None) |}.

Definition createIndex (payload : Marshaler) : internalRawRequest bytes :=
  {| endpoint := "/indexes"; method := "POST";
     withRequest := Some payload; withResponse := Some raw;
     withQueryParams := None;
     acceptedStatusCodes := Some [201];
     functionName := "Create"; apiName := "Indexes" |}.

(** GET /indexes/<uid> for an index UID that holds a line feed. *)
Definition getBadIndex : internalRawRequest bytes :=
  {| endpoint := "/indexes/a" +:+ String (Ascii.ascii_of_nat 10) "b";
     method := "GET";
     withRequest := None; withResponse := Some raw; withQueryParams := None;
     acceptedStatusCodes := Some [200];
     functionName := "Get"; apiName := "Indexes" |}.

(** GET /indexes/movies into a target whose decoder refuses the body. *)
Definition getIndex (target : Unmarshaler bytes) : internalRawRequest bytes :=
  {| endpoint := "/indexes/movies"; method := "GET";
     withRequest := None; withResponse := Some target; withQueryParams := None;
     acceptedStatusCodes := Some [200];
     functionName := "Get"; apiName := "Indexes" |}.

Definition world (answers : list (cause + Response)) : World :=
  {| now := 0; script := answers |}.

End Demo.

(** ** Properties of the dispatcher *)

(** The payload, if any, serializes without error. *)
Definition MarshalOK {T} (req : internalRawRequest T) : Prop :=
  match withRequest req with
  | Some m => snd (MarshalJSON m) = None
  | None => True
  end.

(** The dispatcher's verdict on a status code: no opinion when the list is
    nil, membership otherwise. *)
Definition Accepted {T} (req : internalRawRequest T) (code : Z) : Prop :=
  match acceptedStatusCodes req with
  | Some accepted => code ∈ accepted
  | None => True
  end.

(** The URL sendRequest asks for, once [u] is the parsed host and endpoint. *)
Definition mergedQuery {W} (rt : Runtime W) (u : URL) (params : gmap string string)
  : Values :=
  map_fold Values_Set (URL_Query rt u) params.

#[global] Instance Accepted_dec {T} (req : internalRawRequest T) (code : Z) :
  Decision (Accepted req code).
Proof. unfold Accepted. destruct (acceptedStatusCodes req); apply _. Defined.

(** What executeRequest does once the status code has passed: it hands the
    response to handleResponse. *)
Definition decodeStage {W T} (rt : Runtime W) (req : internalRawRequest T)
    (response : Response) (ie : Error) (target : T) (w : W) (evs : list Event)
  : W * T * list Event * option error :=
  match handleResponse req response ie target with
  | (t, evs', _, err) => (w, t, evs ++ evs', err)
  end.

(** Counting the calls of a run. *)
Definition is_Do (ev : Event) : bool :=
  match ev with EvDo _ => true | _ => false end.

Definition is_Sleep (ev : Event) : bool :=
  match ev with EvSleep _ => true | _ => false end.

(** ** The rest of the client: the default wait, the hand-written codecs
    and some of the resource facades *)

(** [time.Second] and [time.Millisecond], in nanoseconds. *)
Definition Second : Z := 1000000000.
Definition Millisecond : Z := 1000000.

(** [fast_client.go]: DefaultWaitForPendingUpdate. [WithTimeout d w] is the
    context that context.WithTimeout(context.Background(), d) makes when it
    is called in the world [w]; the deferred cancelFunc runs once the result
    is there. *)
Definition DefaultWaitForPendingUpdate {W} (rt : Runtime W)
    (WithTimeout : Z -> W -> Context_ W) (fuel : nat) (c : FastHttpClient)
    (indexUID : string) (updateID : option AsyncUpdateID) (w : W)
  : option (W * list Event * WaitResult) :=
  let ctx := WithTimeout (Second * 5) w in
  WaitForPendingUpdate rt fuel c ctx (Millisecond * 50) indexUID updateID w.

(** [func (b *RawType) UnmarshalJSON(data []byte) error]: the receiver
    becomes the data. *)
Definition RawType_UnmarshalJSON (data : bytes) (b : bytes) : bytes * option cause :=
  (data, None).

(** [func (b RawType) MarshalJSON() ([]byte, error)] *)
Definition RawType_MarshalJSON (b : bytes) : bytes * option cause := (b, None).

(** [func (s *Str) UnmarshalJSON(data []byte) error] *)
Definition Str_UnmarshalJSON (data : bytes) (s : string) : string * option cause :=
  (string_of_bytes data, None).

(** [func (s Str) MarshalJSON() ([]byte, error)] *)
Definition Str_MarshalJSON (s : string) : bytes * option cause :=
  (bytes_of_string s, None).

(** [github.com/valyala/fastjson], as far as the codecs call it: [V] is the
    type of a parsed value; MarshalTo appends the encoding of the value to
    the slice it is given and returns the result; String is the encoding as
    text. *)
Record Fastjson (V : Type) := {
  ParseBytes : bytes -> cause + V;
  Value_Array : V -> cause + list V;
  Value_MarshalTo : V -> bytes -> bytes;
  Value_String : V -> string }.
Arguments ParseBytes {V} _ _.
Arguments Value_Array {V} _ _.
Arguments Value_MarshalTo {V} _ _ _.
Arguments Value_String {V} _ _.

(** [bytes.Buffer]: its unread content. Bytes() returns that content and
    Reset() empties it; a callee that is handed Bytes() cannot make the
    buffer longer. *)
Record Buffer := { buf : bytes }.

Definition Buffer_zero : Buffer := {| buf := [] |}.

Definition Buffer_Bytes (b : Buffer) : bytes := buf b.

Definition Buffer_Reset (b : Buffer) : Buffer := {| buf := [] |}.

(** The [for _, val := range valArray] of StrsArr.UnmarshalJSON: what
    MarshalTo returns is dropped. *)
Fixpoint StrsArr_loop {V} (fj : Fastjson V) (valArray : list V) (bf : Buffer)
    (i : list string) : list string :=
  match valArray with
  | [] => i
  | val :: rest =>
      let _ := Value_MarshalTo fj val (Buffer_Bytes bf) in
      let i := i ++ [Value_String fj val] in
      let bf := Buffer_Reset bf in
      StrsArr_loop fj rest bf i
  end.

(** [func (i *StrsArr) UnmarshalJSON(data []byte) error]; [i] is the array
    the receiver points to. *)
Definition StrsArr_UnmarshalJSON {V} (fj : Fastjson V) (data : bytes)
    (i : list string) : list string * option cause :=
  let bf := Buffer_zero in
  match ParseBytes fj data with
  | inl err => (i, Some err)
  | inr val =>
      match Value_Array fj val with
      | inl err => (i, Some err)
      | inr valArray => (StrsArr_loop fj valArray bf i, None)
      end
  end.

(** [type Index struct]; the two times are kept as numbers. *)
Record Index := {
  Index_Name : string;
  Index_UID : string;
  Index_CreatedAt : Z;
  Index_UpdatedAt : Z;
  Index_PrimaryKey : string }.

(** [&Index{}] *)
Definition Index_zero : Index :=
  {| Index_Name := ""; Index_UID := ""; Index_CreatedAt := 0;
     Index_UpdatedAt := 0; Index_PrimaryKey := "" |}.

(** The loop of Indexes.UnmarshalJSON. [decode] is Index's UnmarshalJSON,
    which is generated code and not among the sources. What MarshalTo
    returns is dropped, and the decoder is given bf.Bytes(). *)
Fixpoint Indexes_loop {V} (fj : Fastjson V)
    (decode : bytes -> Index -> Index * option cause)
    (valArray : list V) (bf : Buffer) (i : list Index)
  : list Index * option cause :=
  match valArray with
  | [] => (i, None)
  | val :: rest =>
      let ind := Index_zero in
      let _ := Value_MarshalTo fj val (Buffer_Bytes bf) in
      match decode (Buffer_Bytes bf) ind with
      | (_, Some err) => (i, Some err)
      | (ind, None) =>
          let i := i ++ [ind] in
          let bf := Buffer_Reset bf in
          Indexes_loop fj decode rest bf i
      end
  end.

(** [func (i *Indexes) UnmarshalJSON(data []byte) error] *)
Definition Indexes_UnmarshalJSON {V} (fj : Fastjson V)
    (decode : bytes -> Index -> Index * option cause)
    (data : bytes) (i : list Index) : list Index * option cause :=
  let bf := Buffer_zero in
  match ParseBytes fj data with
  | inl err => (i, Some err)
  | inr vals =>
      match Value_Array fj vals with
      | inl err => (i, Some err)
      | inr valArray => Indexes_loop fj decode valArray bf i
      end
  end.

(** The loop of Updates.UnmarshalJSON: one Update, allocated before the
    loop, is decoded into again and again and copied into the result. *)
Fixpoint Updates_loop {V} (fj : Fastjson V)
    (decode : bytes -> Update -> Update * option cause)
    (valArray : list V) (bf : Buffer) (upd : Update) (u : list Update)
  : list Update * option cause :=
  match valArray with
  | [] => (u, None)
  | val :: rest =>
      let _ := Value_MarshalTo fj val (Buffer_Bytes bf) in
      match decode (Buffer_Bytes bf) upd with
      | (_, Some err) => (u, Some err)
      | (upd, None) =>
          let u := u ++ [upd] in
          let bf := Buffer_Reset bf in
          Updates_loop fj decode rest bf upd u
      end
  end.

(** [func (u *Updates) UnmarshalJSON(data []byte) error] *)
Definition Updates_UnmarshalJSON {V} (fj : Fastjson V)
    (decode : bytes -> Update -> Update * option cause)
    (data : bytes) (u : list Update) : list Update * option cause :=
  let bf := Buffer_zero in
  match ParseBytes fj data with
  | inl err => (u, Some err)
  | inr val =>
      match Value_Array fj val with
      | inl err => (u, Some err)
      | inr valArray => Updates_loop fj decode valArray bf Update_zero u
      end
  end.

(** [strings.Join(elems, sep)] *)
Fixpoint strings_Join (elems : list string) (sep : string) : string :=
  match elems with
  | [] => ""
  | [x] => x
  | x :: rest => x +:+ sep +:+ strings_Join rest sep
  end.

(** [type ListDocumentsRequest struct] *)
Record ListDocumentsRequest := {
  LD_Offset : Z;
  LD_Limit : Z;
  LD_AttributesToRetrieve : list string }.

(** [fast_client_documents.go]: fastClientDocuments. *)
Record fastClientDocuments := { documents_client : FastHttpClient; documents_indexUID : string }.

(** The query parameters that List collects: the map starts empty and not
    nil, and a key is stored for each field that is not zero. *)
Definition Documents_List_params (request : ListDocumentsRequest) : gmap string string :=
  let params : gmap string string := ∅ in
  let params :=
    if decide (LD_Limit request ≠ 0)
    then <["limit" := FormatInt10 (LD_Limit request)]> params else params in
  let params :=
    if decide (LD_Offset request ≠ 0)
    then <["offset" := FormatInt10 (LD_Offset request)]> params else params in
  let params :=
    if decide (length (LD_AttributesToRetrieve request) ≠ 0%nat)
    then <["attributesToRetrieve" :=
             strings_Join (LD_AttributesToRetrieve request) ","]> params
    else params in
  params.

(** [fast_client_documents.go]: List. [marshal] is the generated
    ListDocumentsRequest.MarshalJSON; [response] is the caller's
    json.Unmarshaler, nil or not, and [target] what it points to. *)
Definition Documents_List {W T} (rt : Runtime W)
    (marshal : ListDocumentsRequest -> bytes * option cause)
    (c : fastClientDocuments) (request : ListDocumentsRequest)
    (response : option (Unmarshaler T)) (target : T) (w : W)
  : W * T * list Event * option error :=
  let req :=
    {| endpoint := "/indexes/" +:+ documents_indexUID c +:+ "/documents";
       method := "GET";
       withRequest := Some {| MarshalJSON := marshal request |};
       withResponse := response;
       withQueryParams := Some (Documents_List_params request);
       acceptedStatusCodes := Some [200];
       functionName := "List";
       apiName := "Documents" |} in
  match executeRequest rt (documents_client c) req target w with
  | (w, target, evs, Some err) => (w, target, evs, Some err)
  | (w, target, evs, None) => (w, target, evs, None)
  end.





(** An [interface{}] value, kept as the text that stands for it. *)
Inductive any := Any (repr : string).

(** [type SearchRequest struct] *)
Record SearchRequest := {
  SR_Query : string;
  SR_Offset : Z;
  SR_Limit : Z;
  SR_AttributesToRetrieve : list string;
  SR_AttributesToCrop : list string;
  SR_CropLength : Z;
  SR_AttributesToHighlight : list string;
  SR_Filters : string;
  SR_Matches : bool;
  SR_FacetsDistribution : list string;
  SR_FacetFilters : option any;
  SR_PlaceholderSearch : bool }.

(** [type Query struct] *)
Record Query := {
  Q_Query : string;
  Q_Offset : Z;
  Q_Limit : Z;
  Q_AttributesToRetrieve : list string;
  Q_AttributesToCrop : list string;
  Q_CropLength : Z;
  Q_AttributesToHighlight : list string;
  Q_Filters : string;
  Q_Matches : bool;
  Q_FacetsDistribution : list string;
  Q_FacetFilters : option any;
  Q_PlaceholderSearch : bool }.

(** [type SearchResponse struct] *)
Record SearchResponse := {
  Hits : list any;
  NbHits : Z;
  SResp_Offset : Z;
  SResp_Limit : Z;
  ProcessingTimeMs : Z;
  SResp_Query : string;
  FacetsDistribution : option any;
  ExhaustiveFacetsCount : option any }.

(** [&SearchResponse{}] *)
Definition SearchResponse_zero : SearchResponse :=
  {| Hits := []; NbHits := 0; SResp_Offset := 0; SResp_Limit := 0;
     ProcessingTimeMs := 0; SResp_Query := ""; FacetsDistribution := None;
     ExhaustiveFacetsCount := None |}.

(** The first half of Search: [&Query{}] and the eleven conditional
    stores into it, after the default of the limit. Each field is stored
    at most once, so each is its zero value unless its condition holds. *)
Definition Search_params (request : SearchRequest) : Query :=
  let request_Limit :=
    if decide (SR_Limit request = 0) then 20 else SR_Limit request in
  {| Q_Query :=
       if negb (SR_PlaceholderSearch request) then SR_Query request else "";
     Q_Filters :=
       if decide (SR_Filters request ≠ "") then SR_Filters request else "";
     Q_Offset :=
       if decide (SR_Offset request ≠ 0) then SR_Offset request else 0;
     Q_Limit :=
       if decide (request_Limit ≠ 20) then request_Limit else 0;
     Q_CropLength :=
       if decide (SR_CropLength request ≠ 0) then SR_CropLength request else 0;
     Q_AttributesToRetrieve :=
       if decide (length (SR_AttributesToRetrieve request) ≠ 0%nat)
       then SR_AttributesToRetrieve request else [];
     Q_AttributesToCrop :=
       if decide (length (SR_AttributesToCrop request) ≠ 0%nat)
       then SR_AttributesToCrop request else [];
     Q_AttributesToHighlight :=
       if decide (length (SR_AttributesToHighlight request) ≠ 0%nat)
       then SR_AttributesToHighlight request else [];
     Q_Matches :=
       if SR_Matches request then SR_Matches request else false;
     Q_FacetsDistribution :=
       if decide (length (SR_FacetsDistribution request) ≠ 0%nat)
       then SR_FacetsDistribution request else [];
     Q_FacetFilters :=
       match SR_FacetFilters request with
       | Some f => Some f
       | None => None
       end;
     Q_PlaceholderSearch := false |}.

(** [fast_client_search.go]: fastClientSearch. *)
Record fastClientSearch := { search_client : FastHttpClient; search_indexUID : string }.

(** [fast_client_search.go]: Search. [marshal] and [decode] are the
    generated MarshalJSON of Query and UnmarshalJSON of SearchResponse. *)
Definition Search {W} (rt : Runtime W)
    (marshal : Query -> bytes * option cause)
    (decode : bytes -> SearchResponse -> SearchResponse * option cause)
    (c : fastClientSearch) (request : SearchRequest) (w : W)
  : W * list Event * (error + SearchResponse) :=
  let resp := SearchResponse_zero in
  let searchPostRequestParams := Search_params request in
  let req :=
    {| endpoint := "/indexes/" +:+ search_indexUID c +:+ "/search";
       method := "POST";
       withRequest := Some {| MarshalJSON := marshal searchPostRequestParams |};
       withResponse := Some {| UnmarshalJSON := decode |};
       withQueryParams := None;
       acceptedStatusCodes := Some [200];
       functionName := "Search";
       apiName := "Search" |} in
  match executeRequest rt (search_client c) req resp w with
  | (w, _, evs, Some err) => (w, evs, inl err)
  | (w, resp, evs, None) => (w, evs, inr resp)
  end.

(** ** Samples for the codecs and the facades *)
Module Samples.

(** A value of the sample parser: a word, or an array of words written
    [a,b,c]. *)
Inductive value := Word (s : string) | Words (l : list string).

Definition parse (data : bytes) : cause + value :=
  match string_of_bytes data with
  | EmptyString => inl (Cause "cannot parse empty string")
  | String "["%char rest =>
      let '(inner, _) := Demo.cut "]"%char rest in
      inr (Words (if decide (inner = "") then [] else Demo.fields ","%char inner))
  | text => inr (Word text)
  end.

Definition array (v : value) : cause + list value :=
  match v with
  | Words l => inr (Word <$> l)
  | Word _ => inl (Cause "value doesn't contain array")
  end.

Definition text (v : value) : string :=
  match v with
  | Word s => s
  | Words l => "[" +:+ Demo.join "," l +:+ "]"
  end.

Definition fj : Fastjson value :=
  {| ParseBytes := parse;
     Value_Array := array;
     Value_MarshalTo := fun v dst => dst ++ bytes_of_string (text v);
     Value_String := text |}.

(** A decoder of Index that takes the body for the UID and refuses an
    empty body. *)
Definition decodeIndex (data : bytes) (ind : Index) : Index * option cause :=
  match data with
  | [] => (ind, Some (Cause "unexpected end of JSON input"))
  | _ => ({| Index_Name := Index_Name ind; Index_UID := string_of_bytes data;
             Index_CreatedAt := Index_CreatedAt ind;
             Index_UpdatedAt := Index_UpdatedAt ind;
             Index_PrimaryKey := Index_PrimaryKey ind |}, None)
  end.

(** A decoder of Index that takes any body, the empty one too. *)
Definition decodeIndexLax (data : bytes) (ind : Index) : Index * option cause :=
  ({| Index_Name := Index_Name ind; Index_UID := string_of_bytes data;
      Index_CreatedAt := Index_CreatedAt ind;
      Index_UpdatedAt := Index_UpdatedAt ind;
      Index_PrimaryKey := Index_PrimaryKey ind |}, None).

(** A decoder of Update that takes any body for the status. *)
Definition decodeUpdateLax (data : bytes) (u : Update) : Update * option cause :=
  ({| Status := string_of_bytes data; UpdateID := UpdateID u;
      UpdateType := UpdateType u; UpdateError := UpdateError u;
      EnqueuedAt := EnqueuedAt u; ProcessedAt := ProcessedAt u |}, None).

(** context.WithTimeout on the sample clock. *)
Definition WithTimeout (d : Z) (w0 : Demo.World) : Context_ Demo.World :=
  Demo.deadline (Demo.now w0 + d).

Definition marshalList (request : ListDocumentsRequest) : bytes * option cause :=
  (bytes_of_string "{}", None).

Definition marshalQuery (q : Query) : bytes * option cause :=
  (bytes_of_string (Q_Query q +:+ "/" +:+ FormatInt10 (Q_Limit q)), None).

Definition decodeSearch (data : bytes) (r : SearchResponse)
  : SearchResponse * option cause :=
  ({| Hits := Hits r; NbHits := NbHits r; SResp_Offset := SResp_Offset r;
      SResp_Limit := SResp_Limit r; ProcessingTimeMs := ProcessingTimeMs r;
      SResp_Query := string_of_bytes data;
      FacetsDistribution := FacetsDistribution r;
      ExhaustiveFacetsCount := ExhaustiveFacetsCount r |}, None).


Definition movieDocuments : fastClientDocuments :=
  {| documents_client := Demo.local; documents_indexUID := "movies" |}.


Definition movieSearch : fastClientSearch :=
  {| search_client := Demo.local; search_indexUID := "movies" |}.


Definition page : ListDocumentsRequest :=
  {| LD_Offset := 0; LD_Limit := 5; LD_AttributesToRetrieve := ["title"; "year"] |}.

Definition wanted : SearchRequest :=
  {| SR_Query := "harry"; SR_Offset := 0; SR_Limit := 0;
     SR_AttributesToRetrieve := []; SR_AttributesToCrop := [];
     SR_CropLength := 0; SR_AttributesToHighlight := []; SR_Filters := "";
     SR_Matches := false; SR_FacetsDistribution := []; SR_FacetFilters := None;
     SR_PlaceholderSearch := false |}.

(** A descriptor whose target is a RawType. *)
Definition getRaw : internalRawRequest bytes :=
  {| endpoint := "/indexes/movies/documents/1"; method := "GET";
     withRequest := None;
     withResponse := Some {| UnmarshalJSON := RawType_UnmarshalJSON |};
     withQueryParams := None;
     acceptedStatusCodes := Some [200];
     functionName := "Get"; apiName := "Documents" |}.

End Samples.

(** ** A sample runtime with fasthttp's release

    fasthttp.ReleaseResponse resets a response before it puts it back in the
    pool, and a reset response reads status 200 and an empty body. The
    sample is the sample runtime above with that release. *)
Module Pool.

Definition Reset (r : Response) : Response := {| StatusCode := 200; Body := [] |}.

Definition runtime : Runtime Demo.World :=
  {| url_Parse := Demo.Parse;
     URL_Query := Demo.Query;
     Values_Encode := Demo.Encode;
     URL_String := Demo.String_;
     httpClient_Do := Demo.Do;
     ReleaseResponse := Reset;
     time_Sleep := Demo.Sleep;
     Error_message := Demo.message;
     Update_UnmarshalJSON := Demo.UnmarshalUpdate |}.

End Pool.

Lemma codeAccepted_elem_of (code : Z) (accepted : list Z) :
  codeAccepted code accepted = true ↔ code ∈ accepted.
Proof.
  induction accepted as [|a l IH]; simpl.
  - split; [discriminate | intros H; inversion H].
  - destruct (Z.eqb_spec code a) as [->|Hne].
    + split; [intros _; apply list_elem_of_here | reflexivity].
    + rewrite IH. split.
      * intros H. by apply list_elem_of_further.
      * intros H. apply elem_of_cons in H as [H|H]; [contradiction | exact H].
Qed.

Lemma codeAccepted_false (code : Z) (accepted : list Z) :
  codeAccepted code accepted = false ↔ code ∉ accepted.
Proof.
  rewrite <- codeAccepted_elem_of. destruct (codeAccepted code accepted); split;
    congruence.
Qed.

Section DispatcherFacts.
Context {W : Type} (rt : Runtime W).

Lemma sendRequest_url_error T (c : FastHttpClient) (req : internalRawRequest T)
    ie w perr :
  url_Parse rt (Host (config c) +:+ endpoint req) = inl perr →
  sendRequest rt c req ie w
  = (w, [], ie, inl (Wrapped perr "unable to parse url")).
Proof. intros H. unfold sendRequest. by rewrite H. Qed.

Lemma sendRequest_marshal_error T (c : FastHttpClient)
    (req : internalRawRequest T) ie w u m data err :
  url_Parse rt (Host (config c) +:+ endpoint req) = inr u →
  withRequest req = Some m →
  MarshalJSON m = (data, Some err) →
  let e := WithErrCode ErrCodeMarshalRequest (Some err)
             (Error_set_RequestToString (string_of_bytes data) ie) in
  sendRequest rt c req ie w = (w, [], e, inl (Structured e)).
Proof. intros Hu Hm Hd. unfold sendRequest. by rewrite Hu, Hm, Hd. Qed.

(** Whatever sendRequest hands to the transport carries the URL with the
    merged query, the method, and the two headers. *)
Lemma sendRequest_events T (c : FastHttpClient) (req : internalRawRequest T)
    ie w w' evs ie' res r :
  sendRequest rt c req ie w = (w', evs, ie', res) →
  EvDo r ∈ evs →
  evs = [EvDo r] ∧
  fst (httpClient_Do rt r w) = w' ∧
  (∃ u, url_Parse rt (Host (config c) +:+ endpoint req) = inr u ∧
        RequestURI r = URL_String rt
          match withQueryParams req with
          | Some params =>
              URL_set_RawQuery (Values_Encode rt (mergedQuery rt u params)) u
          | None => u
          end) ∧
  MarshalOK req ∧
  ReqMethod r = method req ∧
  ReqHeader r !! "Content-Type" = Some "application/json" ∧
  ReqHeader r !! "X-Meili-API-Key"
  = (if decide (APIKey (config c) = "") then None else Some (APIKey (config c))).
Proof.
  unfold sendRequest, MarshalOK, mergedQuery.
  destruct (url_Parse rt _) as [perr|u]; [intros [= <- <- <- <-] Hin; inversion Hin|].
  destruct (withRequest req) as [m|];
    [destruct (MarshalJSON m) as [data [err|]]; simpl;
       [intros [= <- <- <- <-] Hin; inversion Hin|]|simpl].
  all: destruct (httpClient_Do rt _ w) as [w1 [err|resp0]] eqn:HDo;
    intros [= <- <- <- <-] Hin;
    apply list_elem_of_singleton in Hin; injection Hin as ->;
    rewrite HDo; clear HDo; case_decide; simpl;
    (split_and!; [done|done|by eexists|done|done|by simplify_map_eq..]).
Qed.

(** sendRequest calls the transport at most once, and leaves the world
    alone when it does not call it. *)
Lemma sendRequest_shape T (c : FastHttpClient) (req : internalRawRequest T)
    ie w w' evs ie' res :
  sendRequest rt c req ie w = (w', evs, ie', res) →
  (evs = [] ∧ w' = w ∧ ∃ err, res = inl err) ∨
  (∃ r, evs = [EvDo r] ∧ w' = fst (httpClient_Do rt r w)).
Proof.
  unfold sendRequest.
  destruct (url_Parse rt _) as [perr|u]; [intros [= <- <- <- <-]; left; eauto|].
  destruct (withRequest req) as [m|];
    [destruct (MarshalJSON m) as [data [err|]]; simpl;
       [intros [= <- <- <- <-]; left; eauto|]|simpl].
  all: destruct (httpClient_Do rt _ w) as [w1 [err|resp0]] eqn:HDo;
    intros [= <- <- <- <-]; right; eexists; rewrite HDo; done.
Qed.

(** A response comes back from sendRequest only out of a successful call of
    the transport, and it is the released response. *)
Lemma sendRequest_inr_inv T (c : FastHttpClient) (req : internalRawRequest T)
    ie w w' evs ie' response :
  sendRequest rt c req ie w = (w', evs, ie', inr response) →
  ∃ r resp0, evs = [EvDo r] ∧ httpClient_Do rt r w = (w', inr resp0) ∧
             response = ReleaseResponse rt resp0.
Proof.
  unfold sendRequest.
  destruct (url_Parse rt _) as [perr|u]; [discriminate|].
  destruct (withRequest req) as [m|];
    [destruct (MarshalJSON m) as [data [err|]]; simpl; [discriminate|]|simpl].
  all: destruct (httpClient_Do rt _ w) as [w1 [err|resp0]] eqn:HDo;
    intros [= <- <- <- <-]; eauto.
Qed.


Lemma handleStatusCode_accepted T (req : internalRawRequest T) response ie :
  Accepted req (StatusCode response) →
  handleStatusCode rt req response ie = (ie, None).
Proof.
  unfold Accepted, handleStatusCode.
  destruct (acceptedStatusCodes req) as [accepted|]; [|done].
  intros H%codeAccepted_elem_of. by rewrite H.
Qed.

Lemma handleStatusCode_outside T (req : internalRawRequest T) response ie accepted :
  acceptedStatusCodes req = Some accepted →
  StatusCode response ∉ accepted →
  let e := WithErrCode ErrCodeResponseStatusCode None
             (ErrorBody (Error_message rt) (Body response) ie) in
  handleStatusCode rt req response ie = (e, Some (Structured e)).
Proof.
  unfold handleStatusCode. intros -> H%codeAccepted_false. by rewrite H.
Qed.

Lemma handleStatusCode_not_accepted T (req : internalRawRequest T) response ie :
  ¬ Accepted req (StatusCode response) →
  ∃ e, handleStatusCode rt req response ie = (e, Some (Structured e)) ∧
       Code e = ErrCodeResponseStatusCode.
Proof.
  unfold Accepted. intros H.
  destruct (acceptedStatusCodes req) as [accepted|] eqn:Hacc; [|by destruct H].
  eexists. split; [by eapply handleStatusCode_outside|done].
Qed.



End DispatcherFacts.

Section DispatcherSteps.
Context {W : Type} (rt : Runtime W).

Lemma mergedQuery_lookup (u : URL) (params : gmap string string) (key : string) :
  mergedQuery rt u params !! key
  = match params !! key with
    | Some value => Some [value]
    | None => URL_Query rt u !! key
    end.
Proof.
  unfold mergedQuery.
  apply (map_fold_weak_ind (fun (r : Values) (m : gmap string string) =>
           r !! key = match m !! key with
                      | Some value => Some [value]
                      | None => URL_Query rt u !! key
                      end)).
  - by rewrite lookup_empty.
  - intros i x m r _ IH. unfold Values_Set.
    destruct (decide (i = key)) as [->|Hne].
    + by rewrite !lookup_insert_eq.
    + by rewrite !lookup_insert_ne.
Qed.

Lemma executeRequest_on_error T (c : FastHttpClient) (req : internalRawRequest T)
    target w w1 evs ie1 err :
  sendRequest rt c req (newInternalError req) w = (w1, evs, ie1, inl err) →
  executeRequest rt c req target w = (w1, target, evs, Some err).
Proof. intros H. unfold executeRequest. by rewrite H. Qed.

Lemma executeRequest_on_accepted T (c : FastHttpClient)
    (req : internalRawRequest T) target w w1 evs ie1 response :
  sendRequest rt c req (newInternalError req) w = (w1, evs, ie1, inr response) →
  Accepted req (StatusCode response) →
  executeRequest rt c req target w
  = decodeStage rt req response
      (Error_set_StatusCode (StatusCode response) ie1) target w1 evs.
Proof.
  intros Hs Hacc. unfold executeRequest, decodeStage. rewrite Hs.
  rewrite handleStatusCode_accepted by done.
  by destruct (handleResponse req response _ target) as [[[? ?] ?] [?|]].
Qed.

Lemma executeRequest_on_rejected T (c : FastHttpClient)
    (req : internalRawRequest T) target w w1 evs ie1 response :
  sendRequest rt c req (newInternalError req) w = (w1, evs, ie1, inr response) →
  ¬ Accepted req (StatusCode response) →
  ∃ e, executeRequest rt c req target w = (w1, target, evs, Some (Structured e)) ∧
       e = WithErrCode ErrCodeResponseStatusCode None
             (ErrorBody (Error_message rt) (Body response)
                (Error_set_StatusCode (StatusCode response) ie1)).
Proof.
  intros Hs Hacc. unfold executeRequest. rewrite Hs.
  unfold Accepted in Hacc.
  destruct (acceptedStatusCodes req) as [accepted|] eqn:Ha; [|by destruct Hacc].
  erewrite handleStatusCode_outside by done. eauto.
Qed.

(** The calls made by a dispatch: those of sendRequest, then the decoding
    of the body if handleResponse was reached with a target. *)
Lemma executeRequest_inv T (c : FastHttpClient) (req : internalRawRequest T)
    target w w' target' evs err :
  executeRequest rt c req target w = (w', target', evs, err) →
  ∃ evs1 ie1 res,
    sendRequest rt c req (newInternalError req) w = (w', evs1, ie1, res) ∧
    ((evs = evs1 ∧ target' = target) ∨
     (∃ response ut, res = inr response ∧ Accepted req (StatusCode response) ∧
                     withResponse req = Some ut ∧
                     evs = evs1 ++ [EvUnmarshal (Body response)] ∧
                     target' = fst (UnmarshalJSON ut (Body response) target))).
Proof.
  destruct (sendRequest rt c req (newInternalError req) w)
    as [[[w1 evs1] ie1] [e|response]] eqn:Hs.
  - erewrite executeRequest_on_error by done. intros [= <- <- <- <-].
    do 3 eexists. split; [done|]. by left.
  - destruct (decide (Accepted req (StatusCode response))) as [Hacc|Hacc].
    + erewrite executeRequest_on_accepted by done.
      unfold decodeStage, handleResponse.
      destruct (withResponse req) as [ut|] eqn:Hut.
      * destruct (UnmarshalJSON ut (Body response) target) as [t1 [e|]] eqn:Hu;
          intros [= <- <- <- <-]; do 3 eexists; (split; [done|]); right;
          exists response, ut; by rewrite Hu.
      * intros [= <- <- <- <-]. do 3 eexists. split; [done|]. left.
        by rewrite app_nil_r.
    + destruct (executeRequest_on_rejected T c req target w w1 evs1 ie1 response)
        as (e & -> & _); [done..|].
      intros [= <- <- <- <-]. do 3 eexists. split; [done|]. by left.
Qed.

Lemma executeRequest_Do_event T (c : FastHttpClient) (req : internalRawRequest T)
    target w w' target' evs err r :
  executeRequest rt c req target w = (w', target', evs, err) →
  EvDo r ∈ evs →
  ∃ evs1 ie1 res,
    sendRequest rt c req (newInternalError req) w = (w', evs1, ie1, res) ∧
    EvDo r ∈ evs1.
Proof.
  intros (evs1 & ie1 & res & Hs & Hev)%executeRequest_inv Hin.
  exists evs1, ie1, res. split; [done|].
  destruct Hev as [[-> _]|(response & ut & _ & _ & _ & -> & _)]; [done|].
  apply elem_of_app in Hin as [Hin|Hin]; [done|].
  apply list_elem_of_singleton in Hin. discriminate.
Qed.

End DispatcherSteps.

(** ** The dispatcher: the stated properties *)

Section DispatcherClaims.
Context {W : Type} (rt : Runtime W).


(** C2. When the URL has parsed, a payload is present and its MarshalJSON
    fails, executeRequest returns a structured error of kind
    ErrCodeMarshalRequest that wraps the failure and whose request snapshot
    is the text MarshalJSON produced; no call reaches the transport, and
    the world and the response target are as they were. *)
Theorem executeRequest_marshal_failure T (c : FastHttpClient)
    (req : internalRawRequest T) target w u m data err :
  url_Parse rt (Host (config c) +:+ endpoint req) = inr u →
  withRequest req = Some m →
  MarshalJSON m = (data, Some err) →
  ∃ e, executeRequest rt c req target w = (w, target, [], Some (Structured e)) ∧
       Code e = ErrCodeMarshalRequest ∧
       OriginError e = Some err ∧
       RequestToString e = string_of_bytes data.
Proof.
  intros Hu Hm Hd.
  exists (WithErrCode ErrCodeMarshalRequest (Some err)
            (Error_set_RequestToString (string_of_bytes data)
               (newInternalError req))).
  split; [|done].
  eapply executeRequest_on_error.
  by apply (sendRequest_marshal_error rt T c req _ w u m data err).
Qed.

(** C5, what the code does. When parsing host + endpoint fails,
    executeRequest returns errors.Wrap(err, "unable to parse url"): the
    parse error is wrapped and nothing reaches the transport, but the value
    is not a structured error and so has no kind. *)
Theorem executeRequest_url_failure T (c : FastHttpClient)
    (req : internalRawRequest T) target w perr :
  url_Parse rt (Host (config c) +:+ endpoint req) = inl perr →
  executeRequest rt c req target w
  = (w, target, [], Some (Wrapped perr "unable to parse url")) ∧
  ∀ e, executeRequest rt c req target w ≠ (w, target, [], Some (Structured e)).
Proof.
  intros Hu.
  assert (executeRequest rt c req target w
          = (w, target, [], Some (Wrapped perr "unable to parse url"))) as ->.
  { eapply executeRequest_on_error. by apply sendRequest_url_error. }
  split; [done|]. intros e [=].
Qed.

(** C6. With no response target, a dispatch whose transport call answered
    with an accepted status code returns nil, whatever the body of the
    response. *)
Theorem executeRequest_no_target_succeeds T (c : FastHttpClient)
    (req : internalRawRequest T) target w w1 evs ie1 response :
  withResponse req = None →
  sendRequest rt c req (newInternalError req) w = (w1, evs, ie1, inr response) →
  Accepted req (StatusCode response) →
  executeRequest rt c req target w = (w1, target, evs, None).
Proof.
  intros Ht Hs Hacc. erewrite executeRequest_on_accepted by done.
  unfold decodeStage, handleResponse. rewrite Ht. by rewrite app_nil_r.
Qed.


(** C8. With query parameters present, the URL of the request handed to the
    transport is the parsed URL with its RawQuery, and nothing else of it,
    replaced by the encoding of the merged values: each key of the
    descriptor holds the descriptor's value alone, also when the endpoint's
    own query had values for that key, and every other key keeps the values
    of the endpoint's query. *)
Theorem executeRequest_merges_query T (c : FastHttpClient)
    (req : internalRawRequest T) target w w' target' evs err u params r :
  url_Parse rt (Host (config c) +:+ endpoint req) = inr u →
  withQueryParams req = Some params →
  executeRequest rt c req target w = (w', target', evs, err) →
  EvDo r ∈ evs →
  ∃ merged : Values,
    RequestURI r
    = URL_String rt
        {| Scheme := Scheme u; Authority := Authority u; Path := Path u;
           RawQuery := Values_Encode rt merged; Fragment := Fragment u |} ∧
    (∀ key value, params !! key = Some value → merged !! key = Some [value]) ∧
    (∀ key, params !! key = None → merged !! key = URL_Query rt u !! key).
Proof.
  intros Hu Hq Hex Hr.
  destruct (executeRequest_Do_event rt T c req target w w' target' evs err r
              Hex Hr) as (evs1 & ie1 & res & Hs & Hr1).
  destruct (sendRequest_events rt T c req _ w w' evs1 ie1 res r Hs Hr1)
    as (_ & _ & (u' & Hu' & Huri) & _).
  rewrite Hu in Hu'. injection Hu' as <-. rewrite Hq in Huri.
  exists (mergedQuery rt u params).
  split_and!; [exact Huri|..]; intros key; rewrite mergedQuery_lookup.
  - by intros value ->.
  - by intros ->.
Qed.

(** C10. Every request a dispatch hands to the transport, with or without
    a payload, carries Content-Type: application/json; it carries
    X-Meili-API-Key exactly when the configured API key is not the empty
    string, and then with that key as its value. *)
Theorem executeRequest_headers T (c : FastHttpClient)
    (req : internalRawRequest T) target w w' target' evs err r :
  executeRequest rt c req target w = (w', target', evs, err) →
  EvDo r ∈ evs →
  ReqHeader r !! "Content-Type" = Some "application/json" ∧
  (is_Some (ReqHeader r !! "X-Meili-API-Key") ↔ APIKey (config c) ≠ "") ∧
  (APIKey (config c) ≠ "" →
   ReqHeader r !! "X-Meili-API-Key" = Some (APIKey (config c))).
Proof.
  intros Hex Hr.
  destruct (executeRequest_Do_event rt T c req target w w' target' evs err r
              Hex Hr) as (evs1 & ie1 & res & Hs & Hr1).
  destruct (sendRequest_events rt T c req _ w w' evs1 ie1 res r Hs Hr1)
    as (_ & _ & _ & _ & _ & Hct & Hkey).
  split; [done|]. rewrite Hkey. case_decide; split.
  - split; [by intros [? ?]|done].
  - done.
  - split; [done|by eexists].
  - done.
Qed.

End DispatcherClaims.

(** ** The poller *)

Section PollerFacts.
Context {W : Type} (rt : Runtime W).

(** One iteration of the loop, as the Go text reads. *)
Lemma WaitForPendingUpdate_step fuel c ctx interval indexID updateID (w : W) :
  WaitForPendingUpdate rt (S fuel) c ctx interval indexID updateID w
  = match ctx_Err ctx w with
    | Some err => Some (w, [], Returned "" (Some (Foreign err)))
    | None =>
        match updateID with
        | None => Some (w, [], Panicked)
        | Some updateID =>
            match Get rt (Updates c indexID) (AsyncUpdateID_UpdateID updateID) w with
            | (w1, evs, inl _) => Some (w1, evs, Returned UpdateStatusUnknown None)
            | (w1, evs, inr update) =>
                if decide (Status update = UpdateStatusEnqueued) then
                  match WaitForPendingUpdate rt fuel c ctx interval indexID
                          (Some updateID) (time_Sleep rt interval w1) with
                  | Some (w', evs', r) =>
                      Some (w', evs ++ EvSleep interval :: evs', r)
                  | None => None
                  end
                else Some (w1, evs, Returned (Status update) None)
            end
        end
    end.
Proof. reflexivity. Qed.

(** A fetch calls the transport at most once, decodes at most one body
    after it, and never sleeps. *)
Lemma Get_shape (cu : fastClientUpdates) (id : Z) (w w1 : W) evs res :
  Get rt cu id w = (w1, evs, res) →
  (evs = [] ∧ w1 = w) ∨
  (∃ r, w1 = fst (httpClient_Do rt r w) ∧
        (evs = [EvDo r] ∨ ∃ b, evs = [EvDo r; EvUnmarshal b])).
Proof.
  unfold Get.
  destruct (executeRequest rt (client cu) _ Update_zero w)
    as [[[w2 t2] evs2] err] eqn:Hex.
  intros Hget.
  assert (w1 = w2 ∧ evs = evs2) as [-> ->].
  { by destruct err; injection Hget as <- <- <-. }
  apply executeRequest_inv in Hex as (evs1 & ie1 & sres & Hs & Hev).
  apply sendRequest_shape in Hs as [(-> & -> & e & ->)|(r & -> & ->)].
  - destruct Hev as [[-> _]|(response & ut & [=] & _)]. by left.
  - right. exists r. split; [done|].
    destruct Hev as [[-> _]|(response & ut & _ & _ & _ & -> & _)]; [by left|].
    right. by eexists.
Qed.

Lemma Get_no_sleep (cu : fastClientUpdates) (id : Z) (w w1 : W) evs res :
  Get rt cu id w = (w1, evs, res) →
  filter is_Sleep evs = [] ∧ (length (filter is_Do evs) <= 1)%nat.
Proof.
  intros [(-> & _)|(r & _ & [->|[b ->]])]%Get_shape; simpl; split; auto.
Qed.

(** More fuel does not change an answer already given. *)
Lemma WaitForPendingUpdate_fuel_S fuel c ctx interval indexID updateID (w : W) out :
  WaitForPendingUpdate rt fuel c ctx interval indexID updateID w = Some out →
  WaitForPendingUpdate rt (S fuel) c ctx interval indexID updateID w = Some out.
Proof.
  revert updateID w out. induction fuel as [|fuel IH]; intros updateID w out.
  - discriminate.
  - rewrite (WaitForPendingUpdate_step (S fuel)), (WaitForPendingUpdate_step fuel).
    destruct (ctx_Err ctx w); [done|].
    destruct updateID as [updateID|]; [|done].
    destruct (Get rt _ _ w) as [[w1 evs] [e|update]]; [done|].
    case_decide; [|done].
    destruct (WaitForPendingUpdate rt fuel c ctx interval indexID
                (Some updateID) (time_Sleep rt interval w1))
      as [[[w' evs'] r]|] eqn:Hrec; [|discriminate].
    by rewrite (IH _ _ _ Hrec).
Qed.

Lemma WaitForPendingUpdate_fuel_le fuel fuel' c ctx interval indexID updateID
    (w : W) out :
  (fuel <= fuel')%nat →
  WaitForPendingUpdate rt fuel c ctx interval indexID updateID w = Some out →
  WaitForPendingUpdate rt fuel' c ctx interval indexID updateID w = Some out.
Proof.
  induction 1 as [|fuel' _ IH]; [done|].
  intros H. by apply WaitForPendingUpdate_fuel_S, IH.
Qed.

End PollerFacts.

Section PollerClaims.
Context {W : Type} (rt : Runtime W).

(** C3. At the top of an iteration, the first included, a context whose
    Err() is non-nil makes WaitForPendingUpdate return the empty status
    and that error at once: no fetch, no sleep, the world untouched, and
    so also at the top of the iteration that follows an enqueued answer.
    Conversely a returned error is always the context's: the status with
    it is empty and the context's Err() gives that error in the world the
    call ends in. *)
Theorem WaitForPendingUpdate_cancellation (c : FastHttpClient)
    (ctx : Context_ W) (interval : Z) (indexID : string) :
  (∀ fuel updateID w e,
     ctx_Err ctx w = Some e →
     WaitForPendingUpdate rt (S fuel) c ctx interval indexID updateID w
     = Some (w, [], Returned "" (Some (Foreign e)))) ∧
  (∀ fuel updateID w w1 evs update e,
     ctx_Err ctx w = None →
     Get rt (Updates c indexID) (AsyncUpdateID_UpdateID updateID) w
     = (w1, evs, inr update) →
     Status update = UpdateStatusEnqueued →
     ctx_Err ctx (time_Sleep rt interval w1) = Some e →
     WaitForPendingUpdate rt (S (S fuel)) c ctx interval indexID
       (Some updateID) w
     = Some (time_Sleep rt interval w1, evs ++ [EvSleep interval],
             Returned "" (Some (Foreign e)))) ∧
  (∀ fuel updateID w w' evs status err,
     WaitForPendingUpdate rt fuel c ctx interval indexID updateID w
     = Some (w', evs, Returned status (Some err)) →
     status = "" ∧ ∃ e, err = Foreign e ∧ ctx_Err ctx w' = Some e).
Proof.
  split_and!.
  - intros fuel updateID w e He. rewrite WaitForPendingUpdate_step. by rewrite He.
  - intros fuel updateID w w1 evs update e Hc Hget Hst He.
    rewrite WaitForPendingUpdate_step, Hc, Hget.
    rewrite decide_True by done.
    rewrite WaitForPendingUpdate_step. by rewrite He.
  - intros fuel. induction fuel as [|fuel IH];
      intros updateID w w' evs status err; [discriminate|].
    rewrite WaitForPendingUpdate_step.
    destruct (ctx_Err ctx w) as [e|] eqn:Hc.
    { intros [= <- <- <- <-]. eauto. }
    destruct updateID as [updateID|]; [|discriminate].
    destruct (Get rt _ _ w) as [[w1 evs1] [e|update]]; [discriminate|].
    case_decide; [|discriminate].
    destruct (WaitForPendingUpdate rt fuel c ctx interval indexID
                (Some updateID) (time_Sleep rt interval w1))
      as [[[w2 evs2] r]|] eqn:Hrec; [|discriminate].
    intros [= <- <- ->]. by eapply IH.
Qed.

(** C4. In an iteration that the context lets through, a fetch that fails,
    with whatever error, makes WaitForPendingUpdate return the status
    unknown and a nil error out of that same iteration: the calls made are
    those of the one fetch, with one call of the transport at most and no
    sleep. *)
Theorem WaitForPendingUpdate_fetch_failure (fuel : nat) (c : FastHttpClient)
    (ctx : Context_ W) (interval : Z) (indexID : string)
    (updateID : AsyncUpdateID) (w w1 : W) evs err :
  ctx_Err ctx w = None →
  Get rt (Updates c indexID) (AsyncUpdateID_UpdateID updateID) w
  = (w1, evs, inl err) →
  WaitForPendingUpdate rt (S fuel) c ctx interval indexID (Some updateID) w
  = Some (w1, evs, Returned UpdateStatusUnknown None) ∧
  filter is_Sleep evs = [] ∧
  (length (filter is_Do evs) <= 1)%nat.
Proof.
  intros Hc Hget. split.
  - rewrite WaitForPendingUpdate_step. by rewrite Hc, Hget.
  - by eapply Get_no_sleep.
Qed.

End PollerClaims.

(** *** Termination under a clock

    [now] reads the clock of the world. The context fires no later than the
    instant [fire] (its deadline, or the instant it is cancelled); a call of
    the transport takes between 0 and [rtt]; sleeping [interval] moves the
    clock by [interval]. *)
Section PollerClock.
Context {W : Type} (rt : Runtime W).
Variable now : W → Z.
Variables (rtt interval fire : Z) (ctx : Context_ W).
Hypothesis interval_positive : 0 < interval.
Hypothesis Do_takes :
  ∀ r w, now w <= now (fst (httpClient_Do rt r w)) <= now w + rtt.
Hypothesis Sleep_takes :
  ∀ w, now (time_Sleep rt interval w) = now w + interval.
Hypothesis fires : ∀ w, fire <= now w → ctx_Err ctx w ≠ None.

Lemma Get_takes (cu : fastClientUpdates) (id : Z) (w w1 : W) evs res :
  Get rt cu id w = (w1, evs, res) → now w <= now w1 <= now w + rtt.
Proof.
  intros [(_ & ->)|(r & -> & _)]%Get_shape; [|apply Do_takes].
  pose proof (Do_takes AcquireRequest w). lia.
Qed.

Lemma polls_after_sleep (evs evs' : list Event) (d : Z) :
  length (filter is_Do (evs ++ EvSleep d :: evs'))
  = (length (filter is_Do evs) + length (filter is_Do evs'))%nat.
Proof.
  by rewrite filter_app, length_app.
Qed.

Lemma WaitForPendingUpdate_returns_within (c : FastHttpClient)
    (indexID : string) (updateID : option AsyncUpdateID) (n : nat) :
  ∀ w, fire - now w <= Z.of_nat n →
       ∃ w' evs r,
         WaitForPendingUpdate rt (S n) c ctx interval indexID updateID w
         = Some (w', evs, r) ∧
         now w' <= Z.max (now w) (fire + rtt + interval) ∧
         Z.of_nat (length (filter is_Do evs)) * interval
         < Z.max 0 (fire - now w) + interval.
Proof.
  induction n as [|n IH]; intros w Hn; rewrite WaitForPendingUpdate_step.
  - destruct (ctx_Err ctx w) as [e|] eqn:Hc.
    + do 3 eexists. split; [done|]. simpl. lia.
    + exfalso. apply (fires w); [lia|done].
  - destruct (ctx_Err ctx w) as [e|] eqn:Hc.
    { do 3 eexists. split; [done|]. simpl. lia. }
    assert (now w < fire) as Hlt.
    { destruct (Z.lt_ge_cases (now w) fire) as [?|Hge]; [done|].
      by destruct (fires w Hge). }
    destruct updateID as [updateID|];
      [|do 3 eexists; split; [done|]; simpl; lia].
    destruct (Get rt _ _ w) as [[w1 evs1] res] eqn:Hget.
    pose proof (Get_takes _ _ _ _ _ _ Hget) as Ht.
    pose proof (Get_no_sleep rt _ _ _ _ _ _ Hget) as [_ Hp].
    destruct res as [e|update];
      [do 3 eexists; split; [done|]; split; [lia|];
       rewrite Z.max_r by lia; nia|].
    case_decide;
      [|do 3 eexists; split; [done|]; split; [lia|];
        rewrite Z.max_r by lia; nia].
    destruct (IH (time_Sleep rt interval w1)) as (w' & evs' & r & Hrec & Hb & Hq).
    { rewrite Sleep_takes. lia. }
    rewrite Hrec. do 3 eexists. split; [done|].
    rewrite Sleep_takes in Hb, Hq. rewrite polls_after_sleep. split; [lia|].
    rewrite Nat2Z.inj_add. rewrite (Z.max_r 0 (fire - now w)) by lia.
    assert (0 <= Z.of_nat (length (filter is_Do evs1)) <= 1) as Hp1 by lia.
    assert (0 <= Z.of_nat (length (filter is_Do evs'))) as Hp' by lia.
    revert Hq Hp1 Hp'.
    generalize (Z.of_nat (length (filter is_Do evs1))) as p1.
    generalize (Z.of_nat (length (filter is_Do evs'))) as p'.
    intros p' p1 Hq Hp1 Hp'.
    assert (p1 = 0 ∨ p1 = 1) as [-> | ->] by lia;
      destruct (Z.max_spec 0 (fire - (now w1 + interval))) as [[? E]|[? E]];
      rewrite E in Hq; clear E Hb IH Hrec Hget Hn;
      try (assert (p' < 1) by (apply (Z.mul_lt_mono_pos_r interval); lia);
           assert (p' = 0) as -> by lia);
      lia.
Qed.

(** C9. With a positive poll interval, under the clock above, the loop of
    WaitForPendingUpdate ends: some number of iterations suffices for the
    call to give its answer and every larger number gives the same answer;
    the clock then stands no later than the instant the call was made or,
    if later, than fire + rtt + interval; and the transport was called
    fewer than (time left to fire) / interval + 1 times. *)
Theorem WaitForPendingUpdate_terminates (c : FastHttpClient)
    (indexID : string) (updateID : option AsyncUpdateID) (w : W) :
  ∃ fuel w' evs r,
    (∀ fuel', (fuel <= fuel')%nat →
              WaitForPendingUpdate rt fuel' c ctx interval indexID updateID w
              = Some (w', evs, r)) ∧
    now w' <= Z.max (now w) (fire + rtt + interval) ∧
    Z.of_nat (length (filter is_Do evs)) * interval
    < Z.max 0 (fire - now w) + interval.
Proof.
  destruct (WaitForPendingUpdate_returns_within c indexID updateID
              (Z.to_nat (fire - now w)) w) as (w' & evs & r & Hrun & Hb); [lia|].
  exists (S (Z.to_nat (fire - now w))), w', evs, r. split; [|done].
  intros fuel' Hle. by eapply WaitForPendingUpdate_fuel_le.
Qed.

End PollerClock.

(** ** The theorems at work on the sample runtime *)

(** The first event of a run is a call of the transport: found by running
    the dispatch, and then named. *)
Ltac first_call Hex r :=
  let Hev := fresh "Hev" in
  let rest := fresh "rest" in
  match type of Hex with
  | _ = (_, _, ?evs, _) =>
      assert (∃ r rest, evs = EvDo r :: rest) as (r & rest & Hev)
        by (let H := fresh in
            pose proof Hex as H; vm_compute in H;
            injection H as _ _ H _; rewrite <- H; eauto);
      subst evs
  end.



(** POST /indexes with a payload whose MarshalJSON fails. *)
Lemma executeRequest_marshal_failure_witness :
  let w := Demo.world [Demo.answer 201 "{}"] in
  ∃ e, executeRequest Demo.runtime Demo.local (Demo.createIndex Demo.badPayload) [] w
       = (w, [], [], Some (Structured e)) ∧
       Code e = ErrCodeMarshalRequest ∧
       OriginError e = Some (Cause "json: unsupported value") ∧
       RequestToString e = "{".
Proof.
  intros w.
  exact (executeRequest_marshal_failure Demo.runtime bytes Demo.local
           (Demo.createIndex Demo.badPayload) [] w _ Demo.badPayload _ _
           eq_refl eq_refl eq_refl).
Defined.

(** GET /indexes/<uid> with a line feed in the UID. *)
Lemma executeRequest_url_failure_witness :
  let w := Demo.world [Demo.answer 200 "{}"] in
  executeRequest Demo.runtime Demo.local Demo.getBadIndex [] w
  = (w, [], [],
     Some (Wrapped (Cause "net/url: invalid control character in URL")
             "unable to parse url")) ∧
  ∀ e, executeRequest Demo.runtime Demo.local Demo.getBadIndex [] w
       ≠ (w, [], [], Some (Structured e)).
Proof.
  intros w.
  exact (executeRequest_url_failure Demo.runtime bytes Demo.local
           Demo.getBadIndex [] w _ eq_refl).
Defined.

(** DELETE /indexes/movies answered 204 with a body that is not JSON. *)
Lemma executeRequest_no_target_succeeds_witness :
  let w := Demo.world [Demo.answer 204 "<html>gone"] in
  ∃ w1 evs,
    executeRequest Demo.runtime Demo.local Demo.deleteIndex [] w
    = (w1, [], evs, None).
Proof.
  intros w. do 2 eexists.
  apply (executeRequest_no_target_succeeds Demo.runtime bytes Demo.local
           Demo.deleteIndex [] w _ _ _ _ eq_refl eq_refl).
  apply list_elem_of_here.
Defined.


(** GET /indexes/movies/documents?limit=5&offset=2 with limit=20 in the
    descriptor: limit is replaced, offset is kept. *)
Lemma executeRequest_merges_query_witness :
  let w := Demo.world [Demo.answer 200 "[]"] in
  let req := Demo.listDocuments in
  let '(_, _, evs, _) := executeRequest Demo.runtime Demo.keyed req [] w in
  match evs with
  | EvDo r :: _ =>
      ∃ merged : Values,
        RequestURI r
        = Demo.String_
            {| Scheme := ""; Authority := "";
               Path := "http://localhost:7700/indexes/movies/documents";
               RawQuery := Demo.Encode merged; Fragment := "" |} ∧
        merged !! "limit" = Some ["20"] ∧
        merged !! "offset" = Some ["2"]
  | _ => False
  end.
Proof.
  intros w req.
  destruct (executeRequest Demo.runtime Demo.keyed req [] w)
    as [[[w' target'] evs] err] eqn:Hex.
  first_call Hex r.
  destruct (executeRequest_merges_query Demo.runtime bytes Demo.keyed req [] w
              w' target' _ err _ {[ "limit" := "20" ]} r eq_refl eq_refl Hex
              ltac:(apply list_elem_of_here))
    as (merged & Huri & Hwin & Hkeep).
  exists merged. split; [exact Huri|]. split.
  - apply Hwin. reflexivity.
  - rewrite Hkeep; reflexivity.
Defined.

(** The same call through a client with an API key, and the DELETE without
    payload through a client with none. *)
Lemma executeRequest_headers_witness :
  (let '(_, _, evs, _) :=
     executeRequest Demo.runtime Demo.keyed Demo.listDocuments []
       (Demo.world [Demo.answer 200 "[]"]) in
   match evs with
   | EvDo r :: _ =>
       ReqHeader r !! "Content-Type" = Some "application/json" ∧
       ReqHeader r !! "X-Meili-API-Key" = Some "masterKey"
   | _ => False
   end) ∧
  (let '(_, _, evs, _) :=
     executeRequest Demo.runtime Demo.local Demo.deleteIndex []
       (Demo.world [Demo.answer 204 ""]) in
   match evs with
   | EvDo r :: _ =>
       ReqHeader r !! "Content-Type" = Some "application/json" ∧
       ¬ is_Some (ReqHeader r !! "X-Meili-API-Key")
   | _ => False
   end).
Proof.
  split.
  - destruct (executeRequest Demo.runtime Demo.keyed Demo.listDocuments []
                (Demo.world [Demo.answer 200 "[]"]))
      as [[[w' target'] evs] err] eqn:Hex.
    first_call Hex r.
    destruct (executeRequest_headers Demo.runtime bytes Demo.keyed
                Demo.listDocuments [] _ w' target' _ err r Hex
                ltac:(apply list_elem_of_here))
      as (Hct & _ & Hkey).
    split; [exact Hct|]. apply Hkey. discriminate.
  - destruct (executeRequest Demo.runtime Demo.local Demo.deleteIndex []
                (Demo.world [Demo.answer 204 ""]))
      as [[[w' target'] evs] err] eqn:Hex.
    first_call Hex r.
    destruct (executeRequest_headers Demo.runtime bytes Demo.local
                Demo.deleteIndex [] _ w' target' _ err r Hex
                ltac:(apply list_elem_of_here))
      as (Hct & Hiff & _).
    split; [exact Hct|]. intros Hsome. by apply Hiff in Hsome.
Defined.

(** A deadline already passed at entry; a deadline that passes during the
    first sleep; and the only error a finished wait reports. *)
Lemma WaitForPendingUpdate_cancellation_witness :
  let id := Some {| AsyncUpdateID_UpdateID := 7 |} in
  let cancelled := Some (Foreign (Cause "context deadline exceeded")) in
  let w := Demo.world [Demo.answer 200 "enqueued"; Demo.answer 200 "enqueued"] in
  WaitForPendingUpdate Demo.runtime 1 Demo.local (Demo.deadline 0) 50 "movies" id w
  = Some (w, [], Returned "" cancelled) ∧
  (∃ w' evs,
     WaitForPendingUpdate Demo.runtime 2 Demo.local (Demo.deadline 50) 50 "movies" id w
     = Some (w', evs, Returned "" cancelled) ∧
     length (filter is_Do evs) = 1%nat ∧ Demo.now w' = 60) ∧
  (∀ w' evs status err,
     WaitForPendingUpdate Demo.runtime 9 Demo.local (Demo.deadline 100) 50 "movies" id w
     = Some (w', evs, Returned status (Some err)) →
     status = "" ∧ ∃ e, err = Foreign e ∧ ctx_Err (Demo.deadline 100) w' = Some e).
Proof.
  intros id cancelled w. split_and!.
  - exact (proj1 (WaitForPendingUpdate_cancellation Demo.runtime Demo.local
                    (Demo.deadline 0) 50 "movies") 0%nat id w _ eq_refl).
  - do 2 eexists. split.
    + exact (proj1 (proj2 (WaitForPendingUpdate_cancellation Demo.runtime
                             Demo.local (Demo.deadline 50) 50 "movies"))
               0%nat {| AsyncUpdateID_UpdateID := 7 |} w _ _ _ _
               eq_refl eq_refl eq_refl eq_refl).
    + split; reflexivity.
  - exact (proj2 (proj2 (WaitForPendingUpdate_cancellation Demo.runtime
                           Demo.local (Demo.deadline 100) 50 "movies"))
             9%nat id w).
Defined.

(** A fetch that fails in the transport (nothing answers) and one that fails
    in decoding (an empty body): both end the wait with "unknown" and no
    error. *)
Lemma WaitForPendingUpdate_fetch_failure_witness :
  let id := {| AsyncUpdateID_UpdateID := 7 |} in
  (∃ w1 evs,
     WaitForPendingUpdate Demo.runtime 1 Demo.local (Demo.deadline 5000) 50
       "movies" (Some id) (Demo.world [])
     = Some (w1, evs, Returned "unknown" None) ∧
     filter is_Sleep evs = [] ∧ (length (filter is_Do evs) <= 1)%nat) ∧
  (∃ w1 evs,
     WaitForPendingUpdate Demo.runtime 1 Demo.local (Demo.deadline 5000) 50
       "movies" (Some id) (Demo.world [Demo.answer 200 ""])
     = Some (w1, evs, Returned "unknown" None) ∧
     filter is_Sleep evs = [] ∧ (length (filter is_Do evs) <= 1)%nat).
Proof.
  intros id. split; do 2 eexists.
  - exact (WaitForPendingUpdate_fetch_failure Demo.runtime 0 Demo.local
             (Demo.deadline 5000) 50 "movies" id (Demo.world []) _ _ _
             eq_refl eq_refl).
  - exact (WaitForPendingUpdate_fetch_failure Demo.runtime 0 Demo.local
             (Demo.deadline 5000) 50 "movies" id
             (Demo.world [Demo.answer 200 ""]) _ _ _ eq_refl eq_refl).
Defined.

(** A deadline at 150 and an interval of 50 against a server that always
    answers "enqueued" after 10: the wait ends, no later than 210, after
    fewer than four fetches. *)
Lemma WaitForPendingUpdate_terminates_witness :
  let w := Demo.world (repeat (Demo.answer 200 "enqueued") 20) in
  ∃ fuel w' evs r,
    (∀ fuel', (fuel <= fuel')%nat →
              WaitForPendingUpdate Demo.runtime fuel' Demo.local
                (Demo.deadline 150) 50 "movies"
                (Some {| AsyncUpdateID_UpdateID := 7 |}) w
              = Some (w', evs, r)) ∧
    Demo.now w' <= Z.max (Demo.now w) (150 + Demo.latency + 50) ∧
    Z.of_nat (length (filter is_Do evs)) * 50
    < Z.max 0 (150 - Demo.now w) + 50.
Proof.
  intros w.
  apply (WaitForPendingUpdate_terminates Demo.runtime Demo.now Demo.latency 50
           150 (Demo.deadline 150)).
  - lia.
  - intros r w0. unfold Demo.runtime, Demo.Do, Demo.latency. simpl.
    destruct (Demo.script w0); simpl; lia.
  - intros w0. simpl. lia.
  - intros w0 Hle. simpl. by rewrite decide_True.
Defined.

(** ** More on the dispatcher *)

Section DispatcherMore.
Context {W : Type} (rt : Runtime W).

(** The request snapshot of the error record at the moment the transport is
    called. *)
Lemma sendRequest_request T (c : FastHttpClient) (req : internalRawRequest T)
    ie w w' evs ie' res r :
  sendRequest rt c req ie w = (w', evs, ie', res) →
  EvDo r ∈ evs →
  ∃ u,
    url_Parse rt (Host (config c) +:+ endpoint req) = inr u ∧
    r = {| RequestURI :=
             URL_String rt
               match withQueryParams req with
               | Some params =>
                   URL_set_RawQuery (Values_Encode rt (mergedQuery rt u params)) u
               | None => u
               end;
           ReqMethod := method req;
           ReqHeader :=
             if decide (APIKey (config c) = "")
             then <["Content-Type" := "application/json"]> ∅
             else <["X-Meili-API-Key" := APIKey (config c)]>
                    (<["Content-Type" := "application/json"]> ∅);
           ReqBody :=
             match withRequest req with
             | Some m => fst (MarshalJSON m)
             | None => []
             end |} ∧
    match snd (httpClient_Do rt r w) with
    | inl cerr =>
        res = inl (Structured
                     (WithErrCode ErrCodeRequestExecution (Some cerr)
                        match withRequest req with
                        | Some m =>
                            Error_set_RequestToString
                              (string_of_bytes (fst (MarshalJSON m))) ie
                        | None => ie
                        end))
    | inr resp0 => res = inr (ReleaseResponse rt resp0)
    end.
Proof.
  unfold sendRequest, mergedQuery.
  destruct (url_Parse rt _) as [perr|u]; [intros [= <- <- <- <-] Hin; inversion Hin|].
  destruct (withRequest req) as [m|];
    [destruct (MarshalJSON m) as [data [err|]]; simpl;
       [intros [= <- <- <- <-] Hin; inversion Hin|]|simpl].
  all: destruct (httpClient_Do rt _ w) as [w1 [err|resp0]] eqn:HDo;
    intros [= <- <- <- <-] Hin;
    apply list_elem_of_singleton in Hin; injection Hin as ->;
    rewrite HDo; clear HDo; exists u; case_decide; simpl; done.
Qed.

(** X6. The request a dispatch hands to the transport is wholly determined
    by the descriptor and the configuration. Its URL is the parsed host and
    endpoint: as parsed when the query parameters are nil, and otherwise
    with its RawQuery, and nothing else of it, replaced by the encoding of
    the merged values, in which each key of the descriptor holds the
    descriptor's value alone and every other key the values of the
    endpoint's query. The method is the descriptor's; the body is exactly
    what MarshalJSON returned, and empty without a payload; and the headers
    are Content-Type and, with a key configured, X-Meili-API-Key, and no
    other. *)
Theorem executeRequest_request T (c : FastHttpClient)
    (req : internalRawRequest T) target w w' target' evs err r :
  executeRequest rt c req target w = (w', target', evs, err) →
  EvDo r ∈ evs →
  ∃ u requestURL,
    url_Parse rt (Host (config c) +:+ endpoint req) = inr u ∧
    match withQueryParams req with
    | Some params =>
        ∃ merged : Values,
          requestURL
          = {| Scheme := Scheme u; Authority := Authority u; Path := Path u;
               RawQuery := Values_Encode rt merged; Fragment := Fragment u |} ∧
          ∀ key, merged !! key
                 = match params !! key with
                   | Some value => Some [value]
                   | None => URL_Query rt u !! key
                   end
    | None => requestURL = u
    end ∧
    r = {| RequestURI := URL_String rt requestURL;
           ReqMethod := method req;
           ReqHeader :=
             if decide (APIKey (config c) = "")
             then <["Content-Type" := "application/json"]> ∅
             else <["X-Meili-API-Key" := APIKey (config c)]>
                    (<["Content-Type" := "application/json"]> ∅);
           ReqBody :=
             match withRequest req with
             | Some m => fst (MarshalJSON m)
             | None => []
             end |}.
Proof.
  intros Hex Hr.
  destruct (executeRequest_Do_event rt T c req target w w' target' evs err r
              Hex Hr) as (evs1 & ie1 & res & Hs & Hr1).
  destruct (sendRequest_request T c req _ w w' evs1 ie1 res r Hs Hr1)
    as (u & Hu & Hreq & _).
  exists u. destruct (withQueryParams req) as [params|].
  - eexists. split; [exact Hu|]. split; [|exact Hreq].
    exists (mergedQuery rt u params). split; [reflexivity|].
    intros key. apply mergedQuery_lookup.
  - exists u. by split_and!.
Qed.

(** X1. When the call of the transport fails, the dispatch ends there: the
    error is structured, of kind ErrCodeRequestExecution, and wraps the
    transport's error; its status code is 0, no status having been read; the
    transport was called once and not again, and the response target keeps
    its value. *)
Theorem executeRequest_transport_failure T (c : FastHttpClient)
    (req : internalRawRequest T) target w w' target' evs err r cerr :
  executeRequest rt c req target w = (w', target', evs, err) →
  EvDo r ∈ evs →
  snd (httpClient_Do rt r w) = inl cerr →
  ∃ e, err = Some (Structured e) ∧
       Code e = ErrCodeRequestExecution ∧
       OriginError e = Some cerr ∧
       ErrStatusCode e = 0 ∧
       evs = [EvDo r] ∧
       target' = target.
Proof.
  intros Hex Hr HDo.
  destruct (executeRequest_Do_event rt T c req target w w' target' evs err r
              Hex Hr) as (evs1 & ie1 & res & Hs & Hr1).
  destruct (sendRequest_request T c req _ w w' evs1 ie1 res r Hs Hr1)
    as (u & Hu & _ & Hres).
  rewrite HDo in Hres. subst res.
  destruct (sendRequest_events rt T c req _ w w' evs1 ie1 _ r Hs Hr1) as (-> & _).
  erewrite executeRequest_on_error in Hex by done.
  injection Hex as <- <- <-.
  eexists. split; [done|]. split_and!; try done.
  by destruct (withRequest req).
Qed.

(** X2. When the body of an accepted response does not decode, the error is
    structured, of kind ErrCodeResponseUnmarshalBody, and wraps the
    decoder's error; it carries the status code that was read and the raw
    body as text; and the response target is left as the failed decoder
    left it, which need not be as it was. *)
Theorem executeRequest_decode_failure T (c : FastHttpClient)
    (req : internalRawRequest T) ut target w w1 evs ie1 response t1 cerr :
  withResponse req = Some ut →
  sendRequest rt c req (newInternalError req) w = (w1, evs, ie1, inr response) →
  Accepted req (StatusCode response) →
  UnmarshalJSON ut (Body response) target = (t1, Some cerr) →
  ∃ e, executeRequest rt c req target w
       = (w1, t1, evs ++ [EvUnmarshal (Body response)], Some (Structured e)) ∧
       Code e = ErrCodeResponseUnmarshalBody ∧
       OriginError e = Some cerr ∧
       ResponseToString e = string_of_bytes (Body response) ∧
       ErrStatusCode e = StatusCode response.
Proof.
  intros Hut Hs Hacc Hdec.
  erewrite executeRequest_on_accepted by done.
  unfold decodeStage, handleResponse. rewrite Hut, Hdec.
  eexists. split; [done|]. done.
Qed.

(** X4. A dispatch calls the transport at most once, decodes at most one
    body and only after that call, and never sleeps: there is no retry. *)
Theorem executeRequest_calls T (c : FastHttpClient)
    (req : internalRawRequest T) target w w' target' evs err :
  executeRequest rt c req target w = (w', target', evs, err) →
  (evs = [] ∧ w' = w ∧ target' = target ∧ err ≠ None) ∨
  (∃ r, w' = fst (httpClient_Do rt r w) ∧
        ((evs = [EvDo r] ∧ target' = target) ∨
         (∃ b, evs = [EvDo r; EvUnmarshal b]))).
Proof.
  intros Hex.
  destruct (executeRequest_inv rt T c req target w w' target' evs err Hex)
    as (evs1 & ie1 & res & Hs & Hev).
  destruct (sendRequest_shape rt T c req _ w w' evs1 ie1 res Hs)
    as [(-> & -> & e & ->)|(r & -> & ->)].
  - destruct Hev as [[-> ->]|(response & ut & [=] & _)].
    left. erewrite executeRequest_on_error in Hex by done.
    by injection Hex as <-.
  - right. exists r. split; [done|].
    destruct Hev as [[-> ->]|(response & ut & _ & _ & _ & -> & _)]; [by left|].
    right. by eexists.
Qed.

(** X3. Whatever error a dispatch returns is one of five: the wrapped URL
    parse error, or a structured error of kind ErrCodeMarshalRequest,
    ErrCodeRequestExecution, ErrCodeResponseStatusCode or
    ErrCodeResponseUnmarshalBody. A structured error always carries the
    descriptor's endpoint, method, function and API names and accepted
    codes, and it wraps a cause in every kind but ErrCodeResponseStatusCode. *)
Theorem executeRequest_error_kinds T (c : FastHttpClient)
    (req : internalRawRequest T) target w w' target' evs err :
  executeRequest rt c req target w = (w', target', evs, Some err) →
  (∃ perr, url_Parse rt (Host (config c) +:+ endpoint req) = inl perr ∧
           err = Wrapped perr "unable to parse url") ∨
  (∃ e, err = Structured e ∧
        Code e ∈ [ErrCodeMarshalRequest; ErrCodeRequestExecution;
                  ErrCodeResponseStatusCode; ErrCodeResponseUnmarshalBody] ∧
        Endpoint e = endpoint req ∧
        Method e = method req ∧
        Function e = functionName req ∧
        APIName e = apiName req ∧
        StatusCodeExpected e = acceptedStatusCodes req ∧
        (OriginError e = None ↔ Code e = ErrCodeResponseStatusCode)).
Proof.
  unfold executeRequest, sendRequest, handleStatusCode, handleResponse,
    ErrorBody.
  destruct (url_Parse rt _) as [perr|u].
  { intros [= <- <- <- <-]. left. by exists perr. }
  intros Hex. right. revert Hex.
  destruct (withRequest req) as [m|];
    [destruct (MarshalJSON m) as [data [cerr|]]; simpl|simpl].
  1: { intros [= <- <- <- <-]. eexists. split; [done|]. simpl.
       split_and!; first [done | set_solver | (split; intros [=])]. }
  all: destruct (httpClient_Do rt _ w) as [w1 [cerr|resp0]].
  all: try (intros [= <- <- <- <-]; eexists; (split; [done|]); simpl;
            split_and!; first [done | set_solver | (split; intros [=])]).
  all: destruct (acceptedStatusCodes req) as [accepted|] eqn:Ha;
    [destruct (codeAccepted _ accepted)|].
  all: try (destruct (Error_message rt _);
            intros [= <- <- <- <-]; eexists; (split; [done|]); simpl;
            split_and!; first [done | set_solver]).
  all: destruct (withResponse req) as [ut|]; [|intros [=]].
  all: destruct (UnmarshalJSON ut _ target) as [t1 [cerr|]]; [|intros [=]].
  all: intros [= <- <- <- <-]; eexists; (split; [done|]); simpl;
    split_and!; first [done | set_solver | (split; intros [=])].
Qed.

Lemma executeRequest_nil_inv T (c : FastHttpClient)
    (req : internalRawRequest T) target w w' target' evs :
  executeRequest rt c req target w = (w', target', evs, None) →
  ∃ r resp0,
    EvDo r ∈ evs ∧
    httpClient_Do rt r w = (w', inr resp0) ∧
    Accepted req (StatusCode (ReleaseResponse rt resp0)) ∧
    match withResponse req with
    | Some ut =>
        UnmarshalJSON ut (Body (ReleaseResponse rt resp0)) target
        = (target', None) ∧
        evs = [EvDo r; EvUnmarshal (Body (ReleaseResponse rt resp0))]
    | None => target' = target ∧ evs = [EvDo r]
    end.
Proof.
  intros Hex.
  destruct (executeRequest_inv rt T c req target w w' target' evs None Hex)
    as (evs1 & ie1 & res & Hs & Hev).
  destruct res as [e|response].
  { erewrite executeRequest_on_error in Hex by done. discriminate. }
  destruct (sendRequest_inr_inv rt T c req _ w w' evs1 ie1 response Hs)
    as (r & resp0 & -> & HDo & ->).
  destruct (decide (Accepted req (StatusCode (ReleaseResponse rt resp0))))
    as [Hacc|Hacc].
  2: { destruct (executeRequest_on_rejected rt T c req target w w' _ ie1 _ Hs Hacc)
         as (e & He & _). rewrite He in Hex. discriminate. }
  exists r, resp0. split_and!; try done.
  { destruct Hev as [[-> _]|(? & ? & _ & _ & _ & -> & _)]; set_solver. }
  erewrite executeRequest_on_accepted in Hex by done.
  unfold decodeStage, handleResponse in Hex.
  destruct (withResponse req) as [ut|].
  - destruct (UnmarshalJSON ut _ target) as [t1 [cerr|]]; [discriminate|].
    by injection Hex as <- <-.
  - by injection Hex as <- <-.
Qed.

Lemma executeRequest_nil_intro T (c : FastHttpClient)
    (req : internalRawRequest T) target w w' target' evs err r resp0 :
  executeRequest rt c req target w = (w', target', evs, err) →
  EvDo r ∈ evs →
  snd (httpClient_Do rt r w) = inr resp0 →
  Accepted req (StatusCode (ReleaseResponse rt resp0)) →
  match withResponse req with
  | Some ut =>
      snd (UnmarshalJSON ut (Body (ReleaseResponse rt resp0)) target) = None
  | None => True
  end →
  err = None.
Proof.
  intros Hex Hr HDo Hacc Hdec.
  destruct (executeRequest_Do_event rt T c req target w w' target' evs err r
              Hex Hr) as (evs1 & ie1 & res & Hs & Hr1).
  destruct (sendRequest_request T c req _ w w' evs1 ie1 res r Hs Hr1)
    as (u & _ & _ & Hres).
  rewrite HDo in Hres. subst res.
  erewrite executeRequest_on_accepted in Hex by done.
  unfold decodeStage, handleResponse in Hex.
  destruct (withResponse req) as [ut|].
  - destruct (UnmarshalJSON ut _ target) as [t1 [cerr|]]; [discriminate|].
    by simplify_eq.
  - by simplify_eq.
Qed.

(** X5. A dispatch returns nil exactly when the transport answered, the
    status code read from the answer was accepted and, if the descriptor has
    a response target, its decoder took the body without error; the target
    then holds what the decoder made of that body. *)
Theorem executeRequest_succeeds_iff T (c : FastHttpClient)
    (req : internalRawRequest T) target w w' target' evs err :
  executeRequest rt c req target w = (w', target', evs, err) →
  (err = None ↔
   ∃ r resp0,
     EvDo r ∈ evs ∧
     snd (httpClient_Do rt r w) = inr resp0 ∧
     Accepted req (StatusCode (ReleaseResponse rt resp0)) ∧
     match withResponse req with
     | Some ut =>
         UnmarshalJSON ut (Body (ReleaseResponse rt resp0)) target
         = (target', None)
     | None => target' = target
     end).
Proof.
  intros Hex. split.
  - intros ->.
    destruct (executeRequest_nil_inv T c req target w w' target' evs Hex)
      as (r & resp0 & Hr & HDo & Hacc & Hdec).
    exists r, resp0. rewrite HDo. split_and!; try done.
    destruct (withResponse req); by destruct Hdec.
  - intros (r & resp0 & Hr & HDo & Hacc & Hdec).
    eapply executeRequest_nil_intro; try done.
    destruct (withResponse req); [by rewrite Hdec|done].
Qed.

End DispatcherMore.

(** ** More on the poller and on the fetch it repeats *)

Section PollerMore.
Context {W : Type} (rt : Runtime W).

Lemma Get_inr_inv (cu : fastClientUpdates) (id : Z) (w w1 : W) evs update :
  Get rt cu id w = (w1, evs, inr update) →
  ∃ r resp0,
    evs = [EvDo r; EvUnmarshal (Body (ReleaseResponse rt resp0))] ∧
    httpClient_Do rt r w = (w1, inr resp0) ∧
    StatusCode (ReleaseResponse rt resp0) = 200 ∧
    Update_UnmarshalJSON rt (Body (ReleaseResponse rt resp0)) Update_zero
    = (update, None).
Proof.
  unfold Get.
  destruct (executeRequest rt (client cu) _ Update_zero w)
    as [[[w2 t2] evs2] [err|]] eqn:Hex; [discriminate|].
  intros [= <- <- <-].
  apply executeRequest_nil_inv in Hex
    as (r & resp0 & _ & HDo & Hacc & Hdec & Hevs).
  exists r, resp0. split_and!; try done.
  unfold Accepted in Hacc. simpl in Hacc.
  by apply list_elem_of_singleton in Hacc.
Qed.

Lemma Get_inr_one_call (cu : fastClientUpdates) (id : Z) (w w1 : W) evs update :
  Get rt cu id w = (w1, evs, inr update) →
  length (filter is_Do evs) = 1%nat ∧ filter is_Sleep evs = [].
Proof. by intros (r & resp0 & -> & _)%Get_inr_inv. Qed.


(** X8. A wait that ends never reports the status enqueued; and one that
    ends with a nil error reports the outcome of its last fetch, made in a
    world where the context had not yet fired: unknown if that fetch
    failed, the status of the fetched update otherwise. *)
Theorem WaitForPendingUpdate_reports_last_fetch (fuel : nat)
    (c : FastHttpClient) (ctx : Context_ W) (interval : Z) (indexID : string)
    (updateID : option AsyncUpdateID) (w w' : W) evs status err :
  WaitForPendingUpdate rt fuel c ctx interval indexID updateID w
  = Some (w', evs, Returned status err) →
  status ≠ UpdateStatusEnqueued ∧
  (err = None →
   ∃ id w0 evs0 evs1 res,
     updateID = Some id ∧
     ctx_Err ctx w0 = None ∧
     Get rt (Updates c indexID) (AsyncUpdateID_UpdateID id) w0 = (w', evs1, res) ∧
     evs = evs0 ++ evs1 ∧
     match res with
     | inl _ => status = UpdateStatusUnknown
     | inr update => status = Status update
     end).
Proof.
  revert w evs. induction fuel as [|fuel IH]; intros w evs; [discriminate|].
  rewrite WaitForPendingUpdate_step.
  destruct (ctx_Err ctx w) as [e|] eqn:Hc.
  { intros [= <- <- <- <-]. split; [discriminate|discriminate]. }
  destruct updateID as [id|]; [|discriminate].
  destruct (Get rt _ _ w) as [[w1 evs1] [e|update]] eqn:Hget.
  { intros [= <- <- <- <-]. split; [discriminate|]. intros _.
    exists id, w, [], evs1, (inl e). by rewrite Hget. }
  case_decide as Hst.
  - destruct (WaitForPendingUpdate rt fuel c ctx interval indexID (Some id)
                (time_Sleep rt interval w1))
      as [[[w2 evs2] r]|] eqn:Hrec; [|discriminate].
    intros [= <- <- ->].
    destruct (IH _ _ Hrec) as [Hne Hlast]. split; [done|].
    intros Herr.
    destruct (Hlast Herr) as (id' & w0 & evs0 & evs3 & res & Hid & Hc0 & Hg & -> & Hres).
    exists id', w0, (evs1 ++ EvSleep interval :: evs0), evs3, res.
    split_and!; try done. by rewrite <- app_assoc.
  - intros [= <- <- <- <-]. split; [done|]. intros _.
    exists id, w, [], evs1, (inr update). by rewrite Hget.
Qed.

(** X9. The calls of a wait that ends come in rounds, in this order: a
    fetch that calls the transport and decodes the answer, then a sleep of
    the given interval; after the last round comes at most one more fetch,
    with no sleep after it, and nothing at all when the wait ends with an
    error. So every sleep comes directly after a fetch and lasts the
    interval, and no fetch but the last goes without its sleep. *)
Theorem WaitForPendingUpdate_sleeps_between_polls (fuel : nat)
    (c : FastHttpClient) (ctx : Context_ W) (interval : Z) (indexID : string)
    (updateID : option AsyncUpdateID) (w w' : W) evs r :
  WaitForPendingUpdate rt fuel c ctx interval indexID updateID w
  = Some (w', evs, r) →
  ∃ (rounds : list (Request * bytes)) (last : list Event),
    evs = mjoin ((λ qb, [EvDo qb.1; EvUnmarshal qb.2; EvSleep interval])
                   <$> rounds) ++ last ∧
    (last = [] ∨ (∃ q, last = [EvDo q]) ∨
     (∃ q b, last = [EvDo q; EvUnmarshal b])) ∧
    match r with
    | Returned _ None => True
    | _ => last = []
    end.
Proof.
  revert w evs. induction fuel as [|fuel IH]; intros w evs; [discriminate|].
  rewrite WaitForPendingUpdate_step.
  destruct (ctx_Err ctx w) as [e|] eqn:Hc.
  { intros [= <- <- <-]. exists [], []. split_and!; [done|by left|done]. }
  destruct updateID as [id|].
  2: { intros [= <- <- <-]. exists [], []. split_and!; [done|by left|done]. }
  destruct (Get rt _ _ w) as [[w1 evs1] [e|update]] eqn:Hget.
  { intros [= <- <- <-]. exists [], evs1. split_and!; [done| |done].
    destruct (Get_shape rt _ _ _ _ _ _ Hget) as [[-> _]|(q & _ & [->|[b ->]])];
      eauto. }
  destruct (Get_inr_inv _ _ _ _ _ _ Hget) as (q & resp0 & -> & _).
  case_decide as Hst.
  - destruct (WaitForPendingUpdate rt fuel c ctx interval indexID (Some id)
                (time_Sleep rt interval w1))
      as [[[w2 evs2] r2]|] eqn:Hrec; [|discriminate].
    intros [= <- <- <-].
    destruct (IH _ _ Hrec) as (rounds & last & -> & Hlast & Hr).
    exists ((q, Body (ReleaseResponse rt resp0)) :: rounds), last.
    split_and!; [reflexivity|exact Hlast|exact Hr].
  - intros [= <- <- <-].
    exists [], [EvDo q; EvUnmarshal (Body (ReleaseResponse rt resp0))].
    split_and!; [reflexivity| |done]. right. right. eauto.
Qed.

End PollerMore.

Section DefaultWaitClock.
Context {W : Type} (rt : Runtime W).
Variable now : W → Z.
Variable rtt : Z.
Variable WithTimeout : Z → W → Context_ W.
Hypothesis Do_takes :
  ∀ r w, now w <= now (fst (httpClient_Do rt r w)) <= now w + rtt.
Hypothesis Sleep_takes :
  ∀ w, now (time_Sleep rt (Millisecond * 50) w) = now w + Millisecond * 50.
Hypothesis WithTimeout_fires :
  ∀ d w0 w, now w0 + d <= now w → ctx_Err (WithTimeout d w0) w ≠ None.

(** X10. Under a clock on which a transport call takes between 0 and rtt,
    the sleep of 50 ms takes 50 ms and the context made by WithTimeout has
    fired once its timeout has passed, DefaultWaitForPendingUpdate ends: no
    later than 5 s + rtt + 50 ms after it was called, and after at most 100
    calls of the transport. *)
Theorem DefaultWaitForPendingUpdate_bounded (c : FastHttpClient)
    (indexUID : string) (updateID : option AsyncUpdateID) (w : W) :
  ∃ fuel w' evs r,
    (∀ fuel', (fuel <= fuel')%nat →
              DefaultWaitForPendingUpdate rt WithTimeout fuel' c indexUID
                updateID w
              = Some (w', evs, r)) ∧
    now w' <= now w + Second * 5 + rtt + Millisecond * 50 ∧
    (length (filter is_Do evs) <= 100)%nat.
Proof.
  unfold DefaultWaitForPendingUpdate.
  pose proof (Do_takes AcquireRequest w) as Hrtt.
  destruct (WaitForPendingUpdate_returns_within rt now rtt (Millisecond * 50)
              (now w + Second * 5) (WithTimeout (Second * 5) w)
              ltac:(unfold Millisecond; lia) Do_takes Sleep_takes
              (WithTimeout_fires (Second * 5) w)
              c indexUID updateID (Z.to_nat (Second * 5)) w)
    as (w' & evs & r & Hrun & Hb & Hp).
  { unfold Second. lia. }
  exists (S (Z.to_nat (Second * 5))), w', evs, r. split_and!.
  - intros fuel' Hle. by eapply WaitForPendingUpdate_fuel_le.
  - unfold Second, Millisecond in *. lia.
  - unfold Second, Millisecond in *. lia.
Qed.

End DefaultWaitClock.

(** ** The hand-written codecs *)

(** X11. Str round trip: what MarshalJSON makes of a Str decodes back to
    it, what UnmarshalJSON makes of a body encodes back to that body, byte
    for byte, and neither ever fails. *)
Theorem Str_round_trip (s old : string) (data : bytes) :
  Str_UnmarshalJSON (fst (Str_MarshalJSON s)) old = (s, None) ∧
  Str_MarshalJSON (fst (Str_UnmarshalJSON data old)) = (data, None).
Proof.
  unfold Str_UnmarshalJSON, Str_MarshalJSON, string_of_bytes, bytes_of_string.
  simpl. split.
  - by rewrite string_of_list_byte_of_string.
  - by rewrite list_byte_of_string_of_list_byte.
Qed.

Section Codecs.
Context {V : Type} (fj : Fastjson V).

Lemma StrsArr_loop_spec (valArray : list V) (bf : Buffer) (i : list string) :
  StrsArr_loop fj valArray bf i = i ++ (Value_String fj <$> valArray).
Proof.
  revert bf i. induction valArray as [|val rest IH]; intros bf i; simpl.
  - by rewrite app_nil_r.
  - rewrite IH. by rewrite <- app_assoc.
Qed.

(** X12. StrsArr.UnmarshalJSON adds to the array it decodes into: on
    success the array is the old one followed by the text of each element
    of the parsed array, in order; when the body does not parse or is not
    an array it fails and the array is as it was. *)
Theorem StrsArr_UnmarshalJSON_appends (data : bytes) (i i' : list string)
    (err : option cause) :
  StrsArr_UnmarshalJSON fj data i = (i', err) →
  match err with
  | Some _ => i' = i
  | None =>
      ∃ val valArray,
        ParseBytes fj data = inr val ∧
        Value_Array fj val = inr valArray ∧
        i' = i ++ (Value_String fj <$> valArray)
  end.
Proof.
  unfold StrsArr_UnmarshalJSON.
  destruct (ParseBytes fj data) as [e|val]; [intros [= <- <-]; reflexivity|].
  destruct (Value_Array fj val) as [e|valArray] eqn:Ha;
    [intros [= <- <-]; reflexivity|].
  intros [= <- <-]. exists val, valArray. by rewrite StrsArr_loop_spec.
Qed.

Lemma Indexes_loop_spec (decode : bytes → Index → Index * option cause)
    (valArray : list V) (i : list Index) :
  Indexes_loop fj decode valArray Buffer_zero i
  = match valArray with
    | [] => (i, None)
    | _ :: _ =>
        match decode [] Index_zero with
        | (_, Some err) => (i, Some err)
        | (ind, None) => (i ++ repeat ind (length valArray), None)
        end
    end.
Proof.
  revert i. induction valArray as [|val rest IH]; intros i; [done|].
  simpl. unfold Buffer_Bytes, Buffer_zero. simpl.
  destruct (decode [] Index_zero) as [ind [err|]] eqn:Hd; [done|].
  change (Buffer_Reset {| buf := [] |}) with Buffer_zero.
  rewrite IH. destruct rest as [|val' rest'].
  - done.
  - by rewrite <- app_assoc.
Qed.

(** X13. Indexes.UnmarshalJSON hands the decoder of Index the empty byte
    slice for every element, never the element: of a body that parses to an
    array, only the length counts. An empty array leaves the list as it
    was; for any other, if decoding no bytes fails the call fails and the
    list is as it was, and otherwise the list grows by as many copies of the
    index decoded from no bytes as the array has elements. *)
Theorem Indexes_UnmarshalJSON_ignores_elements
    (decode : bytes → Index → Index * option cause)
    (data : bytes) (i : list Index) val valArray :
  ParseBytes fj data = inr val →
  Value_Array fj val = inr valArray →
  Indexes_UnmarshalJSON fj decode data i
  = match valArray with
    | [] => (i, None)
    | _ :: _ =>
        match decode [] Index_zero with
        | (_, Some err) => (i, Some err)
        | (ind, None) => (i ++ repeat ind (length valArray), None)
        end
    end.
Proof.
  intros Hp Ha. unfold Indexes_UnmarshalJSON. rewrite Hp, Ha.
  apply Indexes_loop_spec.
Qed.

Lemma Updates_loop_length (decode : bytes → Update → Update * option cause)
    (valArray valArray' : list V) (upd : Update) (u : list Update) :
  length valArray = length valArray' →
  Updates_loop fj decode valArray Buffer_zero upd u
  = Updates_loop fj decode valArray' Buffer_zero upd u.
Proof.
  revert valArray' upd u.
  induction valArray as [|val rest IH]; intros [|val' rest'] upd u Hlen;
    try discriminate; [done|].
  simpl. unfold Buffer_Bytes, Buffer_zero. simpl.
  destruct (decode [] upd) as [upd' [err|]]; [done|].
  change (Buffer_Reset {| buf := [] |}) with Buffer_zero.
  apply IH. by injection Hlen.
Qed.

(** X14. Updates.UnmarshalJSON hands the decoder of Update the empty byte
    slice for every element, never the element: two bodies that parse to
    arrays of the same length decode to the same result, whatever their
    elements are. *)
Theorem Updates_UnmarshalJSON_ignores_elements
    (decode : bytes → Update → Update * option cause)
    (data data' : bytes) (u : list Update) val val' valArray valArray' :
  ParseBytes fj data = inr val →
  Value_Array fj val = inr valArray →
  ParseBytes fj data' = inr val' →
  Value_Array fj val' = inr valArray' →
  length valArray = length valArray' →
  Updates_UnmarshalJSON fj decode data u = Updates_UnmarshalJSON fj decode data' u.
Proof.
  intros Hp Ha Hp' Ha' Hlen. unfold Updates_UnmarshalJSON.
  rewrite Hp, Ha, Hp', Ha'. by apply Updates_loop_length.
Qed.

End Codecs.

(** ** Some of the resource facades *)

Section Facades.
Context {W : Type} (rt : Runtime W).

(** An error of kind ErrCodeResponseUnmarshalBody comes out of a decoder
    that failed. *)
Lemma executeRequest_decode_error_inv T (c : FastHttpClient)
    (req : internalRawRequest T) target w w' target' evs e :
  executeRequest rt c req target w = (w', target', evs, Some (Structured e)) →
  Code e = ErrCodeResponseUnmarshalBody →
  ∃ ut body cerr,
    withResponse req = Some ut ∧
    snd (UnmarshalJSON ut body target) = Some cerr.
Proof.
  unfold executeRequest, sendRequest, handleStatusCode, handleResponse,
    ErrorBody.
  destruct (url_Parse rt _) as [perr|u]; [discriminate|].
  destruct (withRequest req) as [m|];
    [destruct (MarshalJSON m) as [data [cerr|]]; simpl|simpl].
  1: { intros [= <- <- <- <-]. discriminate. }
  all: destruct (httpClient_Do rt _ w) as [w1 [cerr|resp0]].
  all: try (intros [= <- <- <- <-]; discriminate).
  all: destruct (acceptedStatusCodes req) as [accepted|] eqn:Ha;
    [destruct (codeAccepted _ accepted)|].
  all: try (destruct (Error_message rt _); intros [= <- <- <- <-]; discriminate).
  all: destruct (withResponse req) as [ut|]; [|discriminate].
  all: destruct (UnmarshalJSON ut _ target) as [t1 [cerr|]] eqn:Hd;
    [|discriminate].
  all: intros _ _; eexists ut, _, cerr; split; [done|]; by rewrite Hd.
Qed.

(** A dispatch that fails leaves the target alone unless its decoder ran
    and failed. *)
Lemma executeRequest_error_target T (c : FastHttpClient)
    (req : internalRawRequest T) target w w' target' evs err :
  executeRequest rt c req target w = (w', target', evs, Some err) →
  (∀ ut body, withResponse req = Some ut →
              snd (UnmarshalJSON ut body target) = None) →
  target' = target.
Proof.
  intros Hex Hnever.
  destruct (executeRequest_inv rt T c req target w w' target' evs _ Hex)
    as (evs1 & ie1 & res & Hs & [[_ ->]|(response & ut & -> & Hacc & Hut & -> & _)]);
    [done|].
  destruct (sendRequest_inr_inv rt T c req _ w w' evs1 ie1 response Hs)
    as (r & resp0 & -> & HDo & ->).
  assert (Some err = None) as Habs; [|discriminate].
  eapply (executeRequest_nil_intro rt T c req target w w' target' _ _ r resp0 Hex).
  - set_solver.
  - by rewrite HDo.
  - done.
  - rewrite Hut. by apply Hnever.
Qed.

(** X15. A dispatch into a RawType target never fails in decoding: on
    success the target holds the body of the response byte for byte,
    whatever it is, and on failure the target is as it was and the error is
    not of kind ErrCodeResponseUnmarshalBody. *)
Theorem executeRequest_RawType_target (c : FastHttpClient)
    (req : internalRawRequest bytes) target w w' target' evs err :
  withResponse req = Some {| UnmarshalJSON := RawType_UnmarshalJSON |} →
  executeRequest rt c req target w = (w', target', evs, err) →
  match err with
  | None =>
      ∃ r resp0,
        EvDo r ∈ evs ∧
        httpClient_Do rt r w = (w', inr resp0) ∧
        target' = Body (ReleaseResponse rt resp0)
  | Some e =>
      target' = target ∧
      ∀ s, e = Structured s → Code s ≠ ErrCodeResponseUnmarshalBody
  end.
Proof.
  intros Hut Hex. destruct err as [e|].
  - split.
    + eapply executeRequest_error_target; [done|].
      intros ut body. rewrite Hut. by intros [= <-].
    + intros s -> Hcode.
      destruct (executeRequest_decode_error_inv _ c req target w w' target' evs s
                  Hex Hcode) as (ut & body & cerr & Hut' & Hd).
      rewrite Hut in Hut'. injection Hut' as <-. discriminate.
  - destruct (executeRequest_nil_inv rt _ c req target w w' target' evs Hex)
      as (r & resp0 & Hr & HDo & _ & Hdec).
    rewrite Hut in Hdec. destruct Hdec as [[= <-] _]. by exists r, resp0.
Qed.



(** X18. Documents.List sends a GET whose body is the marshalled request
    and whose URL is the parsed host and endpoint with its RawQuery, and
    nothing else of it, replaced by the encoding of these values: limit and
    offset in decimal when they are not 0, attributesToRetrieve joined by
    commas when there are any, and for a field that is 0 or empty, as for
    every other key, what the endpoint's own query holds. *)
Theorem Documents_List_request T
    (marshal : ListDocumentsRequest → bytes * option cause)
    (c : fastClientDocuments) (request : ListDocumentsRequest)
    (response : option (Unmarshaler T)) (target : T) (w w' : W)
    target' evs err r :
  Documents_List rt marshal c request response target w = (w', target', evs, err) →
  EvDo r ∈ evs →
  ∃ u (query : Values),
    url_Parse rt (Host (config (documents_client c)) +:+ "/indexes/"
                    +:+ documents_indexUID c +:+ "/documents") = inr u ∧
    RequestURI r
    = URL_String rt
        {| Scheme := Scheme u; Authority := Authority u; Path := Path u;
           RawQuery := Values_Encode rt query; Fragment := Fragment u |} ∧
    ReqMethod r = "GET" ∧
    ReqBody r = fst (marshal request) ∧
    query !! "limit"
    = (if decide (LD_Limit request = 0) then URL_Query rt u !! "limit"
       else Some [FormatInt10 (LD_Limit request)]) ∧
    query !! "offset"
    = (if decide (LD_Offset request = 0) then URL_Query rt u !! "offset"
       else Some [FormatInt10 (LD_Offset request)]) ∧
    query !! "attributesToRetrieve"
    = match LD_AttributesToRetrieve request with
      | [] => URL_Query rt u !! "attributesToRetrieve"
      | _ :: _ => Some [strings_Join (LD_AttributesToRetrieve request) ","]
      end ∧
    ∀ key, key ∉ ["limit"; "offset"; "attributesToRetrieve"] →
           query !! key = URL_Query rt u !! key.
Proof.
  unfold Documents_List.
  destruct (executeRequest rt (documents_client c) _ target w)
    as [[[w2 t2] evs2] err2] eqn:Hex.
  intros Hl Hr.
  assert (evs = evs2) as -> by (by destruct err2; injection Hl as <- <- <- <-).
  destruct (executeRequest_Do_event rt _ _ _ _ _ _ _ _ _ r Hex Hr)
    as (evs1 & ie1 & sres & Hs & Hr1).
  destruct (sendRequest_request rt _ _ _ _ _ _ _ _ _ r Hs Hr1)
    as (u & Hu & -> & _).
  exists u, (mergedQuery rt u (Documents_List_params request)).
  simpl. split_and!; try done.
  - rewrite mergedQuery_lookup. unfold Documents_List_params.
    repeat case_decide; by simplify_map_eq.
  - rewrite mergedQuery_lookup. unfold Documents_List_params.
    repeat case_decide; by simplify_map_eq.
  - rewrite mergedQuery_lookup. unfold Documents_List_params.
    destruct (LD_AttributesToRetrieve request) as [|a l] eqn:Ha; simpl;
      repeat case_decide; by simplify_map_eq.
  - intros key Hkey. rewrite mergedQuery_lookup. unfold Documents_List_params.
    assert (key ≠ "limit" ∧ key ≠ "offset" ∧ key ≠ "attributesToRetrieve")
      as (? & ? & ?) by set_solver.
    repeat case_decide; by simplify_map_eq.
Qed.

(** X19. What Search puts in its payload: the query text unless
    PlaceholderSearch is set, the limit unless it is 0 or 20, and every
    other field of the request as it is; the PlaceholderSearch flag itself
    is never passed on. So a request with limit 0 and the same request with
    limit 20 make the same call with the same outcome. *)
Theorem Search_params_normal_form (request : SearchRequest)
    (marshal : Query → bytes * option cause)
    (decode : bytes → SearchResponse → SearchResponse * option cause)
    (c : fastClientSearch) (w : W) :
  Search_params request
  = {| Q_Query := if SR_PlaceholderSearch request then "" else SR_Query request;
       Q_Offset := SR_Offset request;
       Q_Limit :=
         if decide (SR_Limit request = 0 ∨ SR_Limit request = 20) then 0
         else SR_Limit request;
       Q_AttributesToRetrieve := SR_AttributesToRetrieve request;
       Q_AttributesToCrop := SR_AttributesToCrop request;
       Q_CropLength := SR_CropLength request;
       Q_AttributesToHighlight := SR_AttributesToHighlight request;
       Q_Filters := SR_Filters request;
       Q_Matches := SR_Matches request;
       Q_FacetsDistribution := SR_FacetsDistribution request;
       Q_FacetFilters := SR_FacetFilters request;
       Q_PlaceholderSearch := false |} ∧
  (SR_Limit request = 0 →
   Search rt marshal decode c request w
   = Search rt marshal decode c
       {| SR_Query := SR_Query request;
          SR_Offset := SR_Offset request;
          SR_Limit := 20;
          SR_AttributesToRetrieve := SR_AttributesToRetrieve request;
          SR_AttributesToCrop := SR_AttributesToCrop request;
          SR_CropLength := SR_CropLength request;
          SR_AttributesToHighlight := SR_AttributesToHighlight request;
          SR_Filters := SR_Filters request;
          SR_Matches := SR_Matches request;
          SR_FacetsDistribution := SR_FacetsDistribution request;
          SR_FacetFilters := SR_FacetFilters request;
          SR_PlaceholderSearch := SR_PlaceholderSearch request |} w).
Proof.
  assert (∀ l : list string,
            (if decide (length l ≠ 0%nat) then l else []) = l) as Hlist.
  { intros [|x l]; by case_decide. }
  assert (∀ z : Z, (if decide (z ≠ 0) then z else 0) = z) as Hz.
  { intros z. case_decide; [done|]. by destruct (decide (z = 0)) as [->|]. }
  assert (Search_params request
          = {| Q_Query := if SR_PlaceholderSearch request then ""
                          else SR_Query request;
               Q_Offset := SR_Offset request;
               Q_Limit :=
                 if decide (SR_Limit request = 0 ∨ SR_Limit request = 20) then 0
                 else SR_Limit request;
               Q_AttributesToRetrieve := SR_AttributesToRetrieve request;
               Q_AttributesToCrop := SR_AttributesToCrop request;
               Q_CropLength := SR_CropLength request;
               Q_AttributesToHighlight := SR_AttributesToHighlight request;
               Q_Filters := SR_Filters request;
               Q_Matches := SR_Matches request;
               Q_FacetsDistribution := SR_FacetsDistribution request;
               Q_FacetFilters := SR_FacetFilters request;
               Q_PlaceholderSearch := false |}) as Hnf.
  { unfold Search_params. rewrite !Hlist, !Hz. f_equal.
    - by destruct (SR_PlaceholderSearch request).
    - repeat case_decide; lia.
    - case_decide as Hf; [done|]. by destruct (decide (SR_Filters request = "")).
    - by destruct (SR_Matches request).
    - by destruct (SR_FacetFilters request). }
  split; [exact Hnf|].
  intros Hlim. unfold Search. rewrite Hnf.
  assert (∀ request', Search_params request' = Search_params request →
            Search rt marshal decode c request' w
            = Search rt marshal decode c request w) as Hsame.
  { intros request' Heq. unfold Search. by rewrite Heq. }
  rewrite <- Hnf. symmetry. apply Hsame.
  unfold Search_params. simpl. rewrite Hlim. by repeat case_decide.
Qed.

End Facades.

(** ** The further theorems at work on the samples *)

(** DELETE /indexes/movies when nothing answers. *)
Lemma executeRequest_transport_failure_witness :
  let '(_, target', evs, err) :=
    executeRequest Demo.runtime Demo.local Demo.deleteIndex
      (bytes_of_string "old") (Demo.world []) in
  match evs with
  | EvDo r :: _ =>
      ∃ e, err = Some (Structured e) ∧
           Code e = ErrCodeRequestExecution ∧
           OriginError e = Some (Cause "connection refused") ∧
           ErrStatusCode e = 0 ∧
           evs = [EvDo r] ∧
           target' = bytes_of_string "old"
  | _ => False
  end.
Proof.
  destruct (executeRequest Demo.runtime Demo.local Demo.deleteIndex
              (bytes_of_string "old") (Demo.world []))
    as [[[w' target'] evs] err] eqn:Hex.
  first_call Hex r.
  exact (executeRequest_transport_failure Demo.runtime bytes Demo.local
           Demo.deleteIndex _ _ w' target' _ err r _ Hex
           ltac:(apply list_elem_of_here) eq_refl).
Defined.

(** GET /indexes/movies answered 200 into a target whose decoder refuses. *)
Lemma executeRequest_decode_failure_witness :
  let w := Demo.world [Demo.answer 200 "{}"] in
  ∃ w1 t1 evs e,
    executeRequest Demo.runtime Demo.local (Demo.getIndex Demo.picky)
      (bytes_of_string "old") w
    = (w1, t1, evs, Some (Structured e)) ∧
    Code e = ErrCodeResponseUnmarshalBody ∧
    OriginError e = Some (Cause "invalid character") ∧
    ResponseToString e = "{}" ∧
    ErrStatusCode e = 200.
Proof.
  intros w.
  destruct (executeRequest_decode_failure Demo.runtime bytes Demo.local
              (Demo.getIndex Demo.picky) Demo.picky (bytes_of_string "old") w
              _ _ _ _ _ _ eq_refl eq_refl ltac:(apply list_elem_of_here) eq_refl)
    as (e & He & Hrest).
  by eexists _, _, _, e.
Defined.

(** DELETE /indexes/movies answered 404: the error names the call. *)
Lemma executeRequest_error_kinds_witness :
  let w := Demo.world [Demo.answer 404 "Index not found"] in
  match (executeRequest Demo.runtime Demo.local Demo.deleteIndex [] w).2 with
  | Some err =>
      (∃ perr, Demo.Parse "http://localhost:7700/indexes/movies" = inl perr ∧
               err = Wrapped perr "unable to parse url") ∨
      (∃ e, err = Structured e ∧
            Code e ∈ [ErrCodeMarshalRequest; ErrCodeRequestExecution;
                      ErrCodeResponseStatusCode; ErrCodeResponseUnmarshalBody] ∧
            Endpoint e = "/indexes/movies" ∧
            Method e = "DELETE" ∧
            Function e = "Delete" ∧
            APIName e = "Indexes" ∧
            StatusCodeExpected e = Some [204] ∧
            (OriginError e = None ↔ Code e = ErrCodeResponseStatusCode))
  | None => False
  end.
Proof.
  intros w.
  destruct (executeRequest Demo.runtime Demo.local Demo.deleteIndex [] w)
    as [[[w' target'] evs] err] eqn:Hex.
  assert (is_Some err) as [e ->].
  { pose proof Hex as H. vm_compute in H. injection H as _ _ _ <-. eauto. }
  exact (executeRequest_error_kinds Demo.runtime bytes Demo.local
           Demo.deleteIndex [] w w' target' evs e Hex).
Defined.

(** GET /indexes/movies answered 200: one call, then one decoding. *)
Lemma executeRequest_calls_witness :
  let w := Demo.world [Demo.answer 200 "{}"; Demo.answer 200 "{}"] in
  let '(w', target', evs, err) :=
    executeRequest Demo.runtime Demo.local (Demo.getIndex Demo.raw) [] w in
  (evs = [] ∧ w' = w ∧ target' = [] ∧ err ≠ None) ∨
  (∃ r, w' = fst (Demo.Do r w) ∧
        ((evs = [EvDo r] ∧ target' = []) ∨
         (∃ b, evs = [EvDo r; EvUnmarshal b]))).
Proof.
  intros w.
  destruct (executeRequest Demo.runtime Demo.local (Demo.getIndex Demo.raw) [] w)
    as [[[w' target'] evs] err] eqn:Hex.
  exact (executeRequest_calls Demo.runtime bytes Demo.local
           (Demo.getIndex Demo.raw) [] w w' target' evs err Hex).
Defined.

(** GET /indexes/movies answered 200 "{}" into a raw target: nil. *)
Lemma executeRequest_succeeds_iff_witness :
  let w := Demo.world [Demo.answer 200 "{}"] in
  let '(_, target', evs, err) :=
    executeRequest Demo.runtime Demo.local (Demo.getIndex Demo.raw) [] w in
  err = None ↔
  ∃ r resp0,
    EvDo r ∈ evs ∧
    snd (Demo.Do r w) = inr resp0 ∧
    StatusCode resp0 ∈ [200] ∧
    (Body resp0, None) = (target', @None cause).
Proof.
  intros w.
  destruct (executeRequest Demo.runtime Demo.local (Demo.getIndex Demo.raw) [] w)
    as [[[w' target'] evs] err] eqn:Hex.
  exact (executeRequest_succeeds_iff Demo.runtime bytes Demo.local
           (Demo.getIndex Demo.raw) [] w w' target' evs err Hex).
Defined.

(** GET /indexes/movies/documents?limit=5&offset=2 with limit=20 in the
    descriptor, through the client with an API key. *)
Lemma executeRequest_request_witness :
  let w := Demo.world [Demo.answer 200 "[]"] in
  let '(_, _, evs, _) :=
    executeRequest Demo.runtime Demo.keyed Demo.listDocuments [] w in
  match evs with
  | EvDo r :: _ =>
      ∃ merged : Values,
        merged !! "limit" = Some ["20"] ∧
        merged !! "offset" = Some ["2"] ∧
        r = {| RequestURI :=
                 Demo.String_
                   {| Scheme := ""; Authority := "";
                      Path := "http://localhost:7700/indexes/movies/documents";
                      RawQuery := Demo.Encode merged; Fragment := "" |};
               ReqMethod := "GET";
               ReqHeader :=
                 <["X-Meili-API-Key" := "masterKey"]>
                   (<["Content-Type" := "application/json"]> ∅);
               ReqBody := [] |}
  | _ => False
  end.
Proof.
  intros w.
  destruct (executeRequest Demo.runtime Demo.keyed Demo.listDocuments [] w)
    as [[[w' target'] evs] err] eqn:Hex.
  first_call Hex r.
  destruct (executeRequest_request Demo.runtime bytes Demo.keyed
              Demo.listDocuments [] w w' target' _ err r Hex
              ltac:(apply list_elem_of_here))
    as (u & requestURL & Hu & (merged & -> & Hm) & Hr).
  injection Hu as <-. exists merged.
  split; [by rewrite Hm|]. split; [by rewrite Hm|]. exact Hr.
Defined.


(** Three answers "enqueued", then "processed". *)
Lemma WaitForPendingUpdate_reports_last_fetch_witness :
  let w := Demo.world [Demo.answer 200 "enqueued"; Demo.answer 200 "enqueued";
                       Demo.answer 200 "enqueued"; Demo.answer 200 "processed"] in
  let id := {| AsyncUpdateID_UpdateID := 7 |} in
  match WaitForPendingUpdate Demo.runtime 10 Demo.local (Demo.deadline 5000) 50
          "movies" (Some id) w with
  | Some (w', evs, Returned status err) =>
      status ≠ UpdateStatusEnqueued ∧
      (err = None →
       ∃ id' w0 evs0 evs1 res,
         Some id = Some id' ∧
         ctx_Err (Demo.deadline 5000) w0 = None ∧
         Get Demo.runtime (Updates Demo.local "movies")
           (AsyncUpdateID_UpdateID id') w0 = (w', evs1, res) ∧
         evs = evs0 ++ evs1 ∧
         match res with
         | inl _ => status = UpdateStatusUnknown
         | inr update => status = Status update
         end)
  | _ => False
  end.
Proof.
  intros w id.
  destruct (WaitForPendingUpdate Demo.runtime 10 Demo.local (Demo.deadline 5000)
              50 "movies" (Some id) w)
    as [[[w' evs] [status err|]]|] eqn:Hrun.
  - exact (WaitForPendingUpdate_reports_last_fetch Demo.runtime 10 Demo.local
             (Demo.deadline 5000) 50 "movies" (Some id) w w' evs status err Hrun).
  - vm_compute in Hrun. discriminate.
  - vm_compute in Hrun. discriminate.
Defined.

(** The same wait: three rounds of fetch and sleep of 50, then the fetch
    that is answered "processed". *)
Lemma WaitForPendingUpdate_sleeps_between_polls_witness :
  let w := Demo.world [Demo.answer 200 "enqueued"; Demo.answer 200 "enqueued";
                       Demo.answer 200 "enqueued"; Demo.answer 200 "processed"] in
  match WaitForPendingUpdate Demo.runtime 10 Demo.local (Demo.deadline 5000) 50
          "movies" (Some {| AsyncUpdateID_UpdateID := 7 |}) w with
  | Some (_, evs, r) =>
      ∃ (rounds : list (Request * bytes)) (last : list Event),
        evs = mjoin ((λ qb, [EvDo qb.1; EvUnmarshal qb.2; EvSleep 50])
                       <$> rounds) ++ last ∧
        (last = [] ∨ (∃ q, last = [EvDo q]) ∨
         (∃ q b, last = [EvDo q; EvUnmarshal b])) ∧
        match r with
        | Returned _ None => True
        | _ => last = []
        end
  | None => False
  end.
Proof.
  intros w.
  destruct (WaitForPendingUpdate Demo.runtime 10 Demo.local (Demo.deadline 5000)
              50 "movies" (Some {| AsyncUpdateID_UpdateID := 7 |}) w)
    as [[[w' evs] r]|] eqn:Hrun.
  - exact (WaitForPendingUpdate_sleeps_between_polls Demo.runtime 10 Demo.local
             (Demo.deadline 5000) 50 "movies" _ w w' evs r Hrun).
  - vm_compute in Hrun. discriminate.
Defined.

(** The default wait against a server that always answers "enqueued". *)
Lemma DefaultWaitForPendingUpdate_bounded_witness :
  let w := Demo.world (repeat (Demo.answer 200 "enqueued") 200) in
  ∃ fuel w' evs r,
    (∀ fuel', (fuel <= fuel')%nat →
              DefaultWaitForPendingUpdate Demo.runtime Samples.WithTimeout fuel'
                Demo.local "movies" (Some {| AsyncUpdateID_UpdateID := 7 |}) w
              = Some (w', evs, r)) ∧
    Demo.now w' <= Demo.now w + Second * 5 + Demo.latency + Millisecond * 50 ∧
    (length (filter is_Do evs) <= 100)%nat.
Proof.
  intros w.
  apply (DefaultWaitForPendingUpdate_bounded Demo.runtime Demo.now Demo.latency
           Samples.WithTimeout).
  - intros r w0. unfold Demo.runtime, Demo.Do, Demo.latency. simpl.
    destruct (Demo.script w0); simpl; lia.
  - intros w0. unfold Millisecond. simpl. lia.
  - intros d w0 w1 Hle. simpl. by rewrite decide_True.
Defined.

(** "[a,b]" decoded into an array that already holds "x"; and a body that
    is no array. *)
Lemma StrsArr_UnmarshalJSON_appends_witness :
  StrsArr_UnmarshalJSON Samples.fj (bytes_of_string "[a,b]") ["x"]
  = (["x"; "a"; "b"], None) ∧
  (StrsArr_UnmarshalJSON Samples.fj (bytes_of_string "a") ["x"]).1 = ["x"].
Proof.
  split.
  - pose proof (StrsArr_UnmarshalJSON_appends Samples.fj (bytes_of_string "[a,b]")
                  ["x"] _ _ eq_refl) as (val & valArray & Hp & Ha & Hi).
    injection Hp as <-. injection Ha as <-. reflexivity.
  - exact (StrsArr_UnmarshalJSON_appends Samples.fj (bytes_of_string "a")
             ["x"] _ _ eq_refl).
Defined.

(** "[movies,books]": with a decoder that refuses no bytes the call fails;
    with one that takes them both indexes come out with an empty UID. *)
Lemma Indexes_UnmarshalJSON_ignores_elements_witness :
  Indexes_UnmarshalJSON Samples.fj Samples.decodeIndex
    (bytes_of_string "[movies,books]") []
  = ([], Some (Cause "unexpected end of JSON input")) ∧
  Indexes_UnmarshalJSON Samples.fj Samples.decodeIndexLax
    (bytes_of_string "[movies,books]") []
  = ([Index_zero; Index_zero], None).
Proof.
  split.
  - exact (Indexes_UnmarshalJSON_ignores_elements Samples.fj Samples.decodeIndex
             (bytes_of_string "[movies,books]") [] _ _ eq_refl eq_refl).
  - exact (Indexes_UnmarshalJSON_ignores_elements Samples.fj
             Samples.decodeIndexLax (bytes_of_string "[movies,books]") []
             _ _ eq_refl eq_refl).
Defined.

(** "[processed,failed]" and "[enqueued,enqueued]" decode alike. *)
Lemma Updates_UnmarshalJSON_ignores_elements_witness :
  Updates_UnmarshalJSON Samples.fj Samples.decodeUpdateLax
    (bytes_of_string "[processed,failed]") []
  = Updates_UnmarshalJSON Samples.fj Samples.decodeUpdateLax
      (bytes_of_string "[enqueued,enqueued]") [].
Proof.
  exact (Updates_UnmarshalJSON_ignores_elements Samples.fj
           Samples.decodeUpdateLax (bytes_of_string "[processed,failed]")
           (bytes_of_string "[enqueued,enqueued]") [] _ _ _ _
           eq_refl eq_refl eq_refl eq_refl eq_refl).
Defined.

(** Listing the documents of "movies": limit 5, no offset, two attributes. *)
Lemma Documents_List_request_witness :
  let w := Demo.world [Demo.answer 200 "[]"] in
  let '(_, _, evs, _) :=
    Documents_List Demo.runtime Samples.marshalList Samples.movieDocuments
      Samples.page (Some Demo.raw) [] w in
  match evs with
  | EvDo r :: _ =>
      ∃ query : Values,
        RequestURI r
        = Demo.String_
            {| Scheme := ""; Authority := "";
               Path := "http://localhost:7700/indexes/movies/documents";
               RawQuery := Demo.Encode query; Fragment := "" |} ∧
        ReqMethod r = "GET" ∧
        ReqBody r = bytes_of_string "{}" ∧
        query !! "limit" = Some ["5"] ∧
        query !! "offset" = None ∧
        query !! "attributesToRetrieve" = Some ["title,year"] ∧
        query !! "primaryKey" = None
  | _ => False
  end.
Proof.
  intros w.
  destruct (Documents_List Demo.runtime Samples.marshalList
              Samples.movieDocuments Samples.page (Some Demo.raw) [] w)
    as [[[w' target'] evs] err] eqn:Hl.
  first_call Hl r.
  destruct (Documents_List_request Demo.runtime bytes Samples.marshalList
              Samples.movieDocuments Samples.page (Some Demo.raw) [] w w'
              target' _ err r Hl ltac:(apply list_elem_of_here))
    as (u & query & Hu & Huri & Hm & Hb & Hlim & Hoff & Hattr & Hother).
  injection Hu as <-. exists query.
  split; [exact Huri|]. split; [exact Hm|]. split; [exact Hb|].
  split; [exact Hlim|]. split; [exact Hoff|]. split; [exact Hattr|].
  rewrite Hother; [reflexivity|].
  intros Hin. repeat (apply elem_of_cons in Hin as [Hin|Hin]; [discriminate|]).
  inversion Hin.
Defined.

(** Searching "harry" with no limit given, and with limit 20. *)
Lemma Search_params_normal_form_witness :
  let w := Demo.world [Demo.answer 200 "{}"] in
  Q_Limit (Search_params Samples.wanted) = 0 ∧
  Q_Query (Search_params Samples.wanted) = "harry" ∧
  Search Demo.runtime Samples.marshalQuery Samples.decodeSearch
    Samples.movieSearch Samples.wanted w
  = Search Demo.runtime Samples.marshalQuery Samples.decodeSearch
      Samples.movieSearch
      {| SR_Query := "harry"; SR_Offset := 0; SR_Limit := 20;
         SR_AttributesToRetrieve := []; SR_AttributesToCrop := [];
         SR_CropLength := 0; SR_AttributesToHighlight := []; SR_Filters := "";
         SR_Matches := false; SR_FacetsDistribution := [];
         SR_FacetFilters := None; SR_PlaceholderSearch := false |} w.
Proof.
  intros w.
  destruct (Search_params_normal_form Demo.runtime Samples.wanted
              Samples.marshalQuery Samples.decodeSearch Samples.movieSearch w)
    as [Hnf Hsame].
  split; [by rewrite Hnf|]. split; [by rewrite Hnf|].
  exact (Hsame eq_refl).
Defined.

(** A document fetched into a RawType: the body arrives as it is. *)
Lemma executeRequest_RawType_target_witness :
  let w := Demo.world [Demo.answer 200 "not json at all"] in
  match executeRequest Demo.runtime Demo.local Samples.getRaw [] w with
  | (w', target', evs, None) =>
      ∃ r resp0,
        EvDo r ∈ evs ∧
        Demo.Do r w = (w', inr resp0) ∧
        target' = Body resp0
  | (_, target', _, Some e) =>
      target' = [] ∧
      ∀ s, e = Structured s → Code s ≠ ErrCodeResponseUnmarshalBody
  end.
Proof.
  intros w.
  destruct (executeRequest Demo.runtime Demo.local Samples.getRaw [] w)
    as [[[w' target'] evs] err] eqn:Hex.
  pose proof (executeRequest_RawType_target Demo.runtime Demo.local
                Samples.getRaw [] w w' target' evs err eq_refl Hex) as H.
  destruct err; exact H.
Defined.


